(** * The quiz session of [QuizPlayer.tsx]

    A shallow embedding of the state machine of the [QuizPlayer] component
    (src/components/QuizPlayer.tsx) over the data model of src/types.ts.

    JavaScript numbers that hold seconds, identifiers and indices are
    integers ([Z]); the [UserAnswers] object is a finite map from question
    identifier to option key.  A React render is modelled by the values its
    closures see; the calls the component makes to its two collaborators
    ([onProgressUpdate], [onFinish]) are collected in order. *)

From stdpp Require Import base numbers option list strings gmap.
From Stdlib Require Import Ascii DecimalString DecimalZ DecimalPos.

Local Open Scope Z_scope.

(** ** Data model (src/types.ts) *)

Record QuizOption := {
  key : string;
  otext : string
}.

Record Question := {
  qid : Z;                       (* id *)
  text : string;
  options : list QuizOption;
  correctAnswer : string;
  explanation : option string
}.

Record QuizData := {
  title : string;
  questions : list Question;
  timeLimit : option Z           (* timeLimit?: number *)
}.

(** [UserAnswers] is [{ [questionId: number]: string }]. *)
Abbreviation UserAnswers := (gmap Z string).

(** ** The component's interface (QuizPlayerProps)

    [onFinish] is required; [onProgressUpdate] is optional, and only its
    presence matters to the component.  [initialAnswers] left out is [{}];
    [initialTimeLeft] left out or [null] is [None]. *)

Record QuizPlayerProps := {
  data : QuizData;
  initialAnswers : option UserAnswers;
  initialTimeLeft : option Z;
  hasOnProgressUpdate : bool
}.

(** A call made to a collaborator. *)
Inductive Call :=
| onProgressUpdate (a : UserAnswers) (t : Z)
| onFinish (a : UserAnswers) (timeSpent : Z).

(** The values of one render that the closures created by that render see. *)
Record Render := {
  r_answers : UserAnswers;
  r_timeLeft : Z
}.

(** The component state: the three [useState] cells, and the interval of the
    timer effect.  [timer] is [Some r] while an interval is installed, [r]
    being the render in which the timer effect last ran: the interval's
    callback, and the [handleSubmit] it calls, are closures of that render.
    [clearInterval] makes it [None]. *)
Record State := {
  currentQuestionIndex : Z;
  answers : UserAnswers;
  timeLeft : Z;
  timer : option Render
}.

(** ** JavaScript helpers *)

(** Truthiness of [obj[k]] for a string-valued object: [undefined] and the
    empty string are falsy. *)
Definition truthy (v : option string) : bool :=
  match v with
  | Some s => negb (String.eqb s "")
  | None => false
  end.

(** [Array.prototype.findIndex]: index of the first element satisfying [f],
    [-1] when there is none. *)
Fixpoint findIndexFrom {A} (f : A → bool) (i : Z) (l : list A) : Z :=
  match l with
  | [] => -1
  | x :: l' => if f x then i else findIndexFrom f (i + 1) l'
  end.

Definition findIndex {A} (f : A → bool) (l : list A) : Z := findIndexFrom f 0 l.

(** [arr[i]]: [undefined] out of range. *)
Definition at_index {A} (l : list A) (i : Z) : option A :=
  if i <? 0 then None else l !! Z.to_nat i.

(** [questions.length] *)
Definition questionCount (d : QuizData) : Z := Z.of_nat (length (questions d)).

(** ** Initialisation (lines 20-39 and the first run of the effects) *)

(** [data.timeLimit || data.questions.length * 60] *)
Definition allocatedTime (d : QuizData) : Z :=
  match timeLimit d with
  | Some t => if t =? 0 then questionCount d * 60 else t
  | None => questionCount d * 60
  end.

(** [initialTimeLeft !== null ? initialTimeLeft : allocatedTime] *)
Definition initialTime (p : QuizPlayerProps) : Z :=
  match initialTimeLeft p with
  | Some t => t
  | None => allocatedTime (data p)
  end.

(** The starting-question effect: the state starts at 0 and is moved to the
    first unanswered question when there are prior answers. *)
Definition startIndex (d : QuizData) (ia : UserAnswers) : Z :=
  if bool_decide (0 < size ia)%nat then
    let firstUnanswered :=
      findIndex (λ q, negb (truthy (ia !! qid q))) (questions d) in
    if firstUnanswered =? -1 then 0 else firstUnanswered
  else 0.

(** Mounting: the initial state after the effects of the first render have
    run.  The timer effect installs the interval in the first render; the
    save-on-answer-change effect also runs once on mount. *)
Definition mount (p : QuizPlayerProps) : State * list Call :=
  let ia := default ∅ (initialAnswers p) in
  let t0 := initialTime p in
  ({| currentQuestionIndex := startIndex (data p) ia;
      answers := ia;
      timeLeft := t0;
      timer := Some {| r_answers := ia; r_timeLeft := t0 |} |},
   if hasOnProgressUpdate p then [onProgressUpdate ia t0] else []).

(** ** Submission (lines 121-125) *)

(** [handleSubmit] as created by render [r]. *)
Definition handleSubmit (p : QuizPlayerProps) (r : Render) : Call :=
  let spent := Z.max 0 (allocatedTime (data p) - r_timeLeft r) in
  onFinish (r_answers r) spent.

(** The render of the current state: what the handlers bound to the buttons
    of the page see. *)
Definition currentRender (s : State) : Render :=
  {| r_answers := answers s; r_timeLeft := timeLeft s |}.

(** ** The timer (lines 42-61) *)

(** The updater passed to [setTimeLeft] by the interval's callback, as a
    closure of render [r]: the new [timeLeft], the calls it makes, and
    whether it cleared the interval. *)
Definition timerUpdater (p : QuizPlayerProps) (r : Render) (prev : Z)
  : Z * list Call * bool :=
  let newVal := prev - 1 in
  let saved :=
    if (Z.rem newVal 5 =? 0) && hasOnProgressUpdate p
    then [onProgressUpdate (r_answers r) newVal] else [] in
  if newVal <=? 0
  then (0, saved ++ [handleSubmit p r], true)
  else (newVal, saved, false).

(** One firing of the interval.  A cleared interval does not fire. *)
Definition tick (p : QuizPlayerProps) (s : State) : State * list Call :=
  match timer s with
  | None => (s, [])
  | Some r =>
      let '(t', calls, cleared) := timerUpdater p r (timeLeft s) in
      ({| currentQuestionIndex := currentQuestionIndex s;
          answers := answers s;
          timeLeft := t';
          timer := if cleared then None else Some r |},
       calls)
  end.

(** ** Answer selection (lines 64-76) *)

(** A new [answers] object is committed: the component renders again, the
    timer effect (dependencies [answers], [onProgressUpdate]) clears its
    interval and installs a new one from the new render, and the
    save-on-answer-change effect reports the new render. *)
Definition commitAnswers (p : QuizPlayerProps) (s : State) (a' : UserAnswers)
  : State * list Call :=
  ({| currentQuestionIndex := currentQuestionIndex s;
      answers := a';
      timeLeft := timeLeft s;
      timer := Some {| r_answers := a'; r_timeLeft := timeLeft s |} |},
   if hasOnProgressUpdate p then [onProgressUpdate a' (timeLeft s)] else []).

(** [setAnswers(prev => ({ ...prev, [questionId]: optionKey }))] *)
Definition handleSelectOption (p : QuizPlayerProps) (s : State)
    (questionId : Z) (optionKey : string) : State * list Call :=
  commitAnswers p s (<[questionId := optionKey]> (answers s)).

(** ** Position (lines 20, 88, 93, 171, 315, 330) *)

Definition setCurrentQuestionIndex (s : State) (i : Z) : State :=
  {| currentQuestionIndex := i;
     answers := answers s;
     timeLeft := timeLeft s;
     timer := timer s |}.

(** [prev => Math.max(0, prev - 1)] *)
Definition previousIndex (prev : Z) : Z := Z.max 0 (prev - 1).

(** [prev => Math.min(data.questions.length - 1, prev + 1)] *)
Definition nextIndex (d : QuizData) (prev : Z) : Z :=
  Z.min (questionCount d - 1) (prev + 1).

(** [data.questions[currentQuestionIndex]] *)
Definition currentQuestion (p : QuizPlayerProps) (s : State) : option Question :=
  at_index (questions (data p)) (currentQuestionIndex s).

(** ** Keyboard (lines 79-119) *)

Record KeyboardEvent := {
  e_key : string;
  e_targetIsInput : bool     (* target is an input or a textarea *)
}.

(** The arms of [switch (e.key)]. *)
Inductive KeyArm :=
| ArmLeft                    (* 'ArrowLeft' *)
| ArmRight                   (* 'ArrowRight', 'Enter' *)
| ArmOption (k : string)     (* '1','a','A' / '2','b','B' / ... *)
| ArmNone.                   (* no case matches *)

Definition keyIn (k : string) (cases : list string) : bool :=
  existsb (String.eqb k) cases.

Definition switchKey (k : string) : KeyArm :=
  if keyIn k ["ArrowLeft"] then ArmLeft
  else if keyIn k ["ArrowRight"; "Enter"] then ArmRight
  else if keyIn k ["1"; "a"; "A"] then ArmOption "A"
  else if keyIn k ["2"; "b"; "B"] then ArmOption "B"
  else if keyIn k ["3"; "c"; "C"] then ArmOption "C"
  else if keyIn k ["4"; "d"; "D"] then ArmOption "D"
  else ArmNone.

(** [currentQ.options.some(o => o.key === k)] *)
Definition hasOption (q : Question) (k : string) : bool :=
  existsb (λ o, String.eqb (key o) k) (options q).

(** The listener.  [None] is the [TypeError] of reading [options] of an
    undefined [currentQ].  ([e.preventDefault()] touches the event only.) *)
Definition handleKeyDown (p : QuizPlayerProps) (s : State) (e : KeyboardEvent)
  : option (State * list Call) :=
  if e_targetIsInput e then Some (s, [])
  else
    let currentQ := currentQuestion p s in
    match switchKey (e_key e) with
    | ArmLeft =>
        Some (setCurrentQuestionIndex s (previousIndex (currentQuestionIndex s)), [])
    | ArmRight =>
        Some (setCurrentQuestionIndex s (nextIndex (data p) (currentQuestionIndex s)), [])
    | ArmOption k =>
        match currentQ with
        | None => None
        | Some q =>
            if hasOption q k then Some (handleSelectOption p s (qid q) k)
            else Some (s, [])
        end
    | ArmNone => Some (s, [])
    end.

(** ** Events and runs *)

Inductive Event :=
| IntervalFires                (* the timer's interval elapses *)
| KeyDown (e : KeyboardEvent)  (* keydown on window *)
| ClickQuestion (idx : nat)    (* the sidebar button of question [idx] *)
| ClickPrevious                (* footer button, disabled on the first question *)
| ClickNext                    (* footer button, disabled on the last question *)
| ChangeOption (i : nat)       (* the radio of option [i] of the current question *)
| ClickSubmit.                 (* either submit button: [handleSubmit] of the current render *)

Definition step (p : QuizPlayerProps) (s : State) (ev : Event)
  : option (State * list Call) :=
  match ev with
  | IntervalFires => Some (tick p s)
  | KeyDown e => handleKeyDown p s e
  | ClickQuestion idx =>
      (* a button exists for each question of the list only *)
      match questions (data p) !! idx with
      | Some _ => Some (setCurrentQuestionIndex s (Z.of_nat idx), [])
      | None => Some (s, [])
      end
  | ClickPrevious =>
      if currentQuestionIndex s =? 0 then Some (s, [])
      else Some (setCurrentQuestionIndex s (previousIndex (currentQuestionIndex s)), [])
  | ClickNext =>
      if currentQuestionIndex s =? questionCount (data p) - 1 then Some (s, [])
      else Some (setCurrentQuestionIndex s (nextIndex (data p) (currentQuestionIndex s)), [])
  | ChangeOption i =>
      match currentQuestion p s with
      | None => Some (s, [])
      | Some q =>
          match options q !! i with
          | None => Some (s, [])
          | Some o =>
              (* [onChange] of a radio that is already checked does not fire *)
              if bool_decide (answers s !! qid q = Some (key o)) then Some (s, [])
              else Some (handleSelectOption p s (qid q) (key o))
          end
      end
  | ClickSubmit => Some (s, [handleSubmit p (currentRender s)])
  end.

(** A run threads the state through the events and appends the calls. *)
Fixpoint run (p : QuizPlayerProps) (s : State) (evs : list Event)
  : option (State * list Call) :=
  match evs with
  | [] => Some (s, [])
  | ev :: evs' =>
      match step p s ev with
      | None => None
      | Some (s1, c1) =>
          match run p s1 evs' with
          | None => None
          | Some (s2, c2) => Some (s2, c1 ++ c2)
          end
      end
  end.

(** The calls of a run, by collaborator. *)
Definition isFinish (c : Call) : bool :=
  match c with onFinish _ _ => true | _ => false end.

Definition submissions (cs : list Call) : nat := length (filter isFinish cs).

Definition snapshots (cs : list Call) : list (UserAnswers * Z) :=
  omap (λ c, match c with onProgressUpdate a t => Some (a, t) | _ => None end) cs.

(** ** Sample sessions *)

Definition optionsABCD : list QuizOption :=
  [ {| key := "A"; otext := "first" |}; {| key := "B"; otext := "second" |};
    {| key := "C"; otext := "third" |}; {| key := "D"; otext := "fourth" |} ].

Definition question (i : Z) (correct : string) : Question :=
  {| qid := i; text := "?"; options := optionsABCD;
     correctAnswer := correct; explanation := None |}.

(** Three questions with identifiers 1, 2, 3 and correct keys A, B, C. *)
Definition quizABC (limit : option Z) : QuizData :=
  {| title := "sample";
     questions := [question 1 "A"; question 2 "B"; question 3 "C"];
     timeLimit := limit |}.

(** A fresh session over [quizABC] with a time limit of [t] seconds. *)
Definition freshSession (t : Z) (progress : bool) : QuizPlayerProps :=
  {| data := quizABC (Some t); initialAnswers := None;
     initialTimeLeft := None; hasOnProgressUpdate := progress |}.

(** The session of [quizABC] resumed with the prior answers [{1: "A"}]. *)
Definition resumedSession : QuizPlayerProps :=
  {| data := quizABC None; initialAnswers := Some {[ 1 := "A"%string ]};
     initialTimeLeft := Some 100; hasOnProgressUpdate := true |}.

(** ** Runs of the timer alone *)

Fixpoint ticks (p : QuizPlayerProps) (n : nat) (s : State) : State * list Call :=
  match n with
  | O => (s, [])
  | S n' =>
      let '(s1, c1) := tick p s in
      let '(s2, c2) := ticks p n' s1 in
      (s2, c1 ++ c2)
  end.

(** The resulting remaining-time values of [n] ticks that start at [n]:
    [n-1, n-2, ..., 0]. *)
Fixpoint countdown (n : nat) : list Z :=
  match n with
  | O => []
  | S n' => Z.of_nat n' :: countdown n'
  end.

Definition multipleOfFive (t : Z) : bool := Z.rem t 5 =? 0.

(** The periodic save of the timer's updater (lines 47-49), for the new
    value [newVal], in a closure of render [r]. *)
Definition saved (p : QuizPlayerProps) (r : Render) (newVal : Z) : list Call :=
  if multipleOfFive newVal && hasOnProgressUpdate p
  then [onProgressUpdate (r_answers r) newVal] else [].

(** ** Navigation requests *)

(** The spec's [setPosition(index)]: clamp to [[0, lastIndex]]. *)
Definition setPosition_spec (n index : Z) : Z := Z.max 0 (Z.min (n - 1) index).

(** The ways the page changes the position. *)
Inductive NavPath :=
| ArrowLeftKey | ArrowRightKey | EnterKey
| PreviousButton | NextButton
| IndexButton (idx : nat).

Definition keyPress (k : string) : Event :=
  KeyDown {| e_key := k; e_targetIsInput := false |}.

Definition navEvent (path : NavPath) : Event :=
  match path with
  | ArrowLeftKey => keyPress "ArrowLeft"
  | ArrowRightKey => keyPress "ArrowRight"
  | EnterKey => keyPress "Enter"
  | PreviousButton => ClickPrevious
  | NextButton => ClickNext
  | IndexButton idx => ClickQuestion idx
  end.

(** The index a path asks for, from position [cur]. *)
Definition requestedIndex (cur : Z) (path : NavPath) : Z :=
  match path with
  | ArrowLeftKey | PreviousButton => cur - 1
  | ArrowRightKey | EnterKey | NextButton => cur + 1
  | IndexButton idx => Z.of_nat idx
  end.

(** The option key a key of the keyboard stands for, if any. *)
Definition mappedKey (k : string) : option string :=
  match switchKey k with
  | ArmOption o => Some o
  | _ => None
  end.

Definition isNavigationKey (k : string) : bool :=
  match switchKey k with
  | ArmLeft | ArmRight => true
  | _ => false
  end.

(** ** Feedback flags and scoring *)

(** Lines 158-159: [!!answers[q.id]] and
    [answers[q.id] === q.correctAnswer]. *)
Definition isAnswered (a : UserAnswers) (q : Question) : bool :=
  truthy (a !! qid q).

Definition isCorrect (a : UserAnswers) (q : Question) : bool :=
  bool_decide (a !! qid q = Some (correctAnswer q)).

(** Modelled from the spec: the Scorer of section 4.4, which runs on the
    result the component hands to [onFinish]; only the per-question flag
    above is in the component.  "For each question compare recorded answer
    (if any) to correctAnswer; a question counts correct only on an exact
    key match; unanswered questions count as incorrect.  Produces a count of
    correct answers and, per question, a boolean correctness flag." *)
Definition scorerFlag (a : UserAnswers) (q : Question) : bool :=
  match a !! qid q with
  | Some k => String.eqb k (correctAnswer q)
  | None => false
  end.

Fixpoint scorerCount (a : UserAnswers) (qs : list Question) : nat :=
  match qs with
  | [] => O
  | q :: qs' => ((if scorerFlag a q then 1 else 0) + scorerCount a qs')%nat
  end.

Definition scorer (d : QuizData) (a : UserAnswers) : nat * list bool :=
  (scorerCount a (questions d), map (scorerFlag a) (questions d)).

(** ** Feedback rendering (lines 139, 157-166, 226-250, 279-307) *)

(** The sidebar button of a question: [bgClass]. *)
Inductive SidebarLook := SidebarPlain | SidebarGreen | SidebarRed.

Definition sidebarLook (a : UserAnswers) (q : Question) : SidebarLook :=
  if isAnswered a q
  then (if isCorrect a q then SidebarGreen else SidebarRed)
  else SidebarPlain.

(** An option of the current question: [containerClass]. *)
Inductive OptionLook := OptionNeutral | OptionCorrect | OptionWrong | OptionFaded.

(** [answers[currentQuestion.id] === option.key] *)
Definition isSelected (a : UserAnswers) (q : Question) (o : QuizOption) : bool :=
  bool_decide (a !! qid q = Some (key o)).

(** [option.key === currentQuestion.correctAnswer] *)
Definition isCorrectAnswer (q : Question) (o : QuizOption) : bool :=
  String.eqb (key o) (correctAnswer q).

Definition optionLook (a : UserAnswers) (q : Question) (o : QuizOption)
  : OptionLook :=
  if isAnswered a q then
    if isCorrectAnswer q o then OptionCorrect
    else if isSelected a q o && negb (isCorrectAnswer q o) then OptionWrong
    else OptionFaded
  else OptionNeutral.

(** The status icons of an option. *)
Definition checkIcon (a : UserAnswers) (q : Question) (o : QuizOption) : bool :=
  isAnswered a q && isCorrectAnswer q o.

Definition crossIcon (a : UserAnswers) (q : Question) (o : QuizOption) : bool :=
  isAnswered a q && isSelected a q o && negb (isCorrectAnswer q o).

(** [Object.keys(answers).length], the count shown as "answered / total". *)
Definition answeredCount (a : UserAnswers) : nat := size a.

(** ** Sequences of selections *)

(** [handleSelectOption] called for each (questionId, optionKey) in turn. *)
Definition selectAll (p : QuizPlayerProps) (s : State) (ws : list (Z * string))
  : State :=
  foldl (λ st w, (handleSelectOption p st w.1 w.2).1) s ws.

(** The last key written for question [i], if any. *)
Definition lastWrite (i : Z) (ws : list (Z * string)) : option string :=
  snd <$> last (filter (λ w, w.1 = i) ws).

(** The answers a call carries. *)
Definition callAnswers (c : Call) : UserAnswers :=
  match c with
  | onProgressUpdate a _ => a
  | onFinish a _ => a
  end.

(** The elapsed times a list of calls delivers to [onFinish]. *)
Definition results (cs : list Call) : list (UserAnswers * Z) :=
  omap (λ c, match c with onFinish a t => Some (a, t) | _ => None end) cs.

(** The position is the index of a question. *)
Definition validPosition (p : QuizPlayerProps) (s : State) : Prop :=
  0 ≤ currentQuestionIndex s < questionCount (data p).

(** Key [k] is the key of an option of a question of the quiz with
    identifier [i]. *)
Definition offered (p : QuizPlayerProps) (i : Z) (k : string) : Prop :=
  ∃ q o, q ∈ questions (data p) ∧ qid q = i ∧ o ∈ options q ∧ key o = k.

(** The installed interval closes over the current answers, and over a
    remaining time that is not below the current one. *)
Definition closureCurrent (s : State) : Prop :=
  ∀ r, timer s = Some r → r_answers r = answers s ∧ timeLeft s ≤ r_timeLeft r.

(** The identifiers of the questions of the quiz. *)
Definition questionIds (p : QuizPlayerProps) : gset Z :=
  list_to_set (qid <$> questions (data p)).

#[global] Instance OptionLook_eq_dec : EqDecision OptionLook.
Proof. solve_decision. Defined.

(** ** The clock (lines 127-131) *)

(** [Number.prototype.toString] of an integer: decimal digits, with a
    leading minus sign for a negative one. *)
Definition toString (z : Z) : string := NilZero.string_of_int (Z.to_int z).

(** [String.prototype.padStart(2, '0')]: a string shorter than two
    characters is filled on the left with zeros; a longer one is kept
    whole. *)
Definition padStart2 (s : string) : string :=
  match String.length s with
  | O => "00" +:+ s
  | S O => "0" +:+ s
  | _ => s
  end.

(** [formatTime]: [Math.floor(seconds / 60)] and [seconds % 60], each padded
    to two characters, around a colon. *)
Definition formatTime (seconds : Z) : string :=
  let m := seconds / 60 in
  let s := Z.rem seconds 60 in
  padStart2 (toString m) +:+ (":" +:+ padStart2 (toString s)).

(** The character of a decimal digit. *)
Definition digit (d : Z) : Ascii.ascii := Ascii.ascii_of_N (48 + Z.to_N d).

(** * The configuration form ([QuizConfig], src/services/geminiService.ts,
      lines 114-295) *)

Module QuizConfig.

Definition LIMIT : Z := 50.

(** [Math.min(totalQuestions, LIMIT)] *)
Definition maxAllowed (d : QuizData) : Z :=
  Z.min (Z.of_nat (length (questions d))) LIMIT.

(** The three [useState] cells; [timeLimit] is in minutes. *)
Record State := {
  questionCount : Z;
  timeLimit : Z;
  isRandom : bool
}.

(** The form under the [data] its parent currently passes. *)
Record Form := {
  formData : QuizData;
  formState : State
}.

Definition init (d : QuizData) : Form :=
  {| formData := d;
     formState := {| questionCount := maxAllowed d;
                     timeLimit := maxAllowed d;
                     isRandom := false |} |}.

(** The effect on [data]: a new batch resets the count and the time. *)
Definition dataChanged (d' : QuizData) (s : State) : State :=
  let count := Z.min (Z.of_nat (length (questions d'))) LIMIT in
  {| questionCount := count; timeLimit := count; isRandom := isRandom s |}.

Definition handleQuestionCountChange (s : State) (val : Z) : State :=
  {| questionCount := val; timeLimit := val; isRandom := isRandom s |}.

(** [parseInt(e.target.value) || 1]; [None] is [NaN]. *)
Definition parsedOrOne (v : option Z) : Z :=
  match v with
  | Some n => if n =? 0 then 1 else n
  | None => 1
  end.

Inductive Event :=
| NewData (d' : QuizData)     (* the parent passes another batch *)
| SlideCount (v : Z)          (* the range input, between its min and max *)
| TypeCount (v : option Z)    (* the number input of the count *)
| TypeTime (v : option Z)     (* the number input of the minutes *)
| ChooseRandom (b : bool).    (* the two mode buttons *)

(** The count inputs are disabled when [maxAllowed === 0]. *)
Definition step (f : Form) (ev : Event) : Form :=
  let d := formData f in
  let s := formState f in
  match ev with
  | NewData d' => {| formData := d'; formState := dataChanged d' s |}
  | SlideCount v =>
      if maxAllowed d =? 0 then f
      else {| formData := d; formState := handleQuestionCountChange s v |}
  | TypeCount v =>
      if maxAllowed d =? 0 then f
      else
        let val := Z.min (Z.max 1 (parsedOrOne v)) (maxAllowed d) in
        {| formData := d; formState := handleQuestionCountChange s val |}
  | TypeTime v =>
      {| formData := d;
         formState := {| questionCount := questionCount s;
                         timeLimit := Z.max 1 (parsedOrOne v);
                         isRandom := isRandom s |} |}
  | ChooseRandom b =>
      {| formData := d;
         formState := {| questionCount := questionCount s;
                         timeLimit := timeLimit s;
                         isRandom := b |} |}
  end.

(** The argument of [onStart]; [startTimeLimit] is in seconds. *)
Record StartConfig := {
  startQuestionCount : Z;
  startIsRandom : bool;
  startTimeLimit : Z
}.

(** [handleStart]; the start button is disabled when [maxAllowed === 0]. *)
Definition handleStart (f : Form) : option StartConfig :=
  if maxAllowed (formData f) =? 0 then None
  else Some {| startQuestionCount := questionCount (formState f);
               startIsRandom := isRandom (formState f);
               startTimeLimit := timeLimit (formState f) * 60 |}.

(** The events a browser can deliver: the slider stays within the bounds of
    the range input, and every batch passed has questions. *)
Definition deliverable (f : Form) (ev : Event) : Prop :=
  match ev with
  | SlideCount v => 1 ≤ v ≤ maxAllowed (formData f)
  | NewData d' => questions d' ≠ []
  | _ => True
  end.

(** A run of the form in which each event is deliverable when it occurs. *)
Fixpoint deliverableRun (f : Form) (evs : list Event) : Prop :=
  match evs with
  | [] => True
  | ev :: evs' => deliverable f ev ∧ deliverableRun (step f ev) evs'
  end.

(** The batch selector (lines 157-163). *)
Definition batchStart (i : Z) : Z := i * 50 + 1.
Definition batchEnd (i : Z) : Z := (i + 1) * 50.

Definition batchLabel (i : Z) : string :=
  "Phần " +:+ toString (i + 1) +:+ " (Câu " +:+ toString (batchStart i)
  +:+ " - " +:+ toString (batchEnd i) +:+ ")".

Definition batchOptions : list (Z * string) :=
  (λ i, (i, batchLabel i)) <$> seqZ 0 20.

End QuizConfig.

(** The bounds the form keeps. *)
Definition configInv (f : QuizConfig.Form) : Prop :=
  1 ≤ QuizConfig.questionCount (QuizConfig.formState f)
    ≤ QuizConfig.maxAllowed (QuizConfig.formData f) ∧
  1 ≤ QuizConfig.timeLimit (QuizConfig.formState f).

(** * The upload zone ([UploadSection], src/components/UploadSection.tsx) *)

Module UploadSection.

(** What the component reads of a [File]. *)
Record File := {
  type : string;
  name : string
}.

Definition acceptedTypes : list (string * list string) :=
  [ ("application/pdf", [".pdf"]);
    ("application/vnd.openxmlformats-officedocument.wordprocessingml.document",
     [".docx"]);
    ("text/plain", [".txt"]);
    ("text/markdown", [".md"]);
    ("image/jpeg", [".jpg"; ".jpeg"]);
    ("image/png", [".png"]);
    ("image/webp", [".webp"]) ]%string.

(** [Object.keys(acceptedTypes)] *)
Definition validMimes : list string := acceptedTypes.*1.

(** [Object.values(acceptedTypes).flat()] *)
Definition acceptedExtensions : list string := concat acceptedTypes.*2.

(** [Array.prototype.includes] on strings. *)
Definition includes (l : list string) (s : string) : bool :=
  existsb (String.eqb s) l.

(** [String.prototype.split] on a one-character separator: the first
    segment and the segments after it.  There is always a first segment. *)
Fixpoint splitAt (sep : Ascii.ascii) (s : string) : string * list string :=
  match s with
  | EmptyString => (EmptyString, [])
  | String c s' =>
      let '(h, t) := splitAt sep s' in
      if Ascii.eqb c sep then (EmptyString, h :: t) else (String c h, t)
  end.

Definition split (sep : Ascii.ascii) (s : string) : list string :=
  let '(h, t) := splitAt sep s in h :: t.

(** [Array.prototype.pop]: the last element, [undefined] on an empty
    array. *)
Definition pop (l : list string) : option string := last l.

(** [String.prototype.toLowerCase] on the letters A-Z.  The accepted
    extensions are made of the letters b c d e f g j m n o p t w x, none of
    which is the lower case of a character outside A-Z, and a byte of a
    character outside ASCII is left as it is, so that this agrees with the
    full function on whether the result is an accepted extension. *)
Definition lowerChar (c : Ascii.ascii) : Ascii.ascii :=
  let n := Ascii.nat_of_ascii c in
  if (65 <=? n)%nat && (n <=? 90)%nat then Ascii.ascii_of_nat (n + 32) else c.

Fixpoint toLowerCase (s : string) : string :=
  match s with
  | EmptyString => EmptyString
  | String c s' => String (lowerChar c) (toLowerCase s')
  end.

(** [isValidFile] (lines 33-40). *)
Definition isValidFile (file : File) : bool :=
  if includes validMimes (type file) then true
  else
    let extension :=
      match pop (split "."%char (name file)) with
      | Some seg => "." +:+ toLowerCase seg
      | None => "." +:+ "undefined"
      end in
    includes acceptedExtensions extension.

(** What the zone does with a file. *)
Inductive Call :=
| onFileSelect (file : File)
| alert.

(** [handleDrop] (lines 42-54) on the files of the drop: only the first one
    is looked at.  The zone takes drops whether or not [isProcessing]. *)
Definition handleDrop (files : list File) : list Call :=
  match files with
  | [] => []
  | file :: _ => if isValidFile file then [onFileSelect file] else [alert]
  end.

(** [handleChange] (lines 56-61) of the file input, which is disabled while
    [isProcessing]. *)
Definition handleChange (isProcessing : bool) (files : list File) : list Call :=
  if isProcessing then []
  else match files with
       | [] => []
       | file :: _ => [onFileSelect file]
       end.

(** The string has no dot. *)
Fixpoint dotFree (s : string) : bool :=
  match s with
  | EmptyString => true
  | String c s' => negb (Ascii.eqb c "."%char) && dotFree s'
  end.

End UploadSection.

(** * The extraction service ([processFileToQuiz],
      src/services/geminiService.ts, lines 4-111) *)

Module GeminiService.

(** What [ai.models.generateContent] does: it throws an error with a
    message, or answers with a response whose [text] may be undefined.  The
    request it is sent (file, prompt, schema) is not modelled. *)
Inductive Response :=
| Throws (message : string)
| Responds (text : option string).

(** How a call ends: the promise resolves with a quiz, or it is rejected
    with an [Error] that carries a message, or it is rejected with the
    [ReferenceError] that the engine raises when an identifier that nothing
    declares is read. *)
Inductive Outcome :=
| Resolves (d : QuizData)
| Rejects (message : string)
| RejectsReferenceError.

(** [throw new Error(error.message || "Failed to process the file.")] *)
Definition rethrow (message : string) : string :=
  if String.eqb message "" then "Failed to process the file." else message.

Definition notFoundMessage (startQuestion endQuestion : Z) : string :=
  "Không tìm thấy câu hỏi nào trong khoảng từ câu " +:+ toString startQuestion
  +:+ " đến " +:+ toString endQuestion +:+ ".".

Section Process.

(** [JSON.parse(text) as QuizData] followed by the read of
    [data.questions]: the quiz, or the message of the error thrown. *)
Variable parse : string → string + QuizData.

(** Line 11 initialises [apiKey] by reading a bare identifier, outside the
    [try].  No source of the repository declares that identifier:
    [keyGlobal] is what the environment binds to it, [None] when it binds
    nothing, as the sources alone have it. *)
Variable keyGlobal : option string.

(** [processFileToQuiz].  [startQuestion] and [endQuestion] default to 1
    and 50.  The errors thrown inside the [try] are caught and thrown again
    by [rethrow]; the read of line 11 and the key check are outside it. *)
Definition processFileToQuiz (startQuestion endQuestion : option Z)
    (response : Response) : Outcome :=
  let startQuestion := default 1 startQuestion in
  let endQuestion := default 50 endQuestion in
  match keyGlobal with
  | None => RejectsReferenceError
  | Some apiKey =>
      if String.eqb apiKey "" then Rejects "API Key is missing"
      else
        match response with
        | Throws message => Rejects (rethrow message)
        | Responds text =>
            if negb (truthy text) then Rejects (rethrow "No response from AI")
            else
              match text with
              | None => Rejects (rethrow "No response from AI")
              | Some text =>
                  match parse text with
                  | inl message => Rejects (rethrow message)
                  | inr data =>
                      if (length (questions data) =? 0)%nat
                      then Rejects (rethrow (notFoundMessage startQuestion
                                               endQuestion))
                      else Resolves data
                  end
              end
        end
  end.

End Process.

End GeminiService.

(** The [accept] attribute of the file input (line 89). *)
Definition acceptAttribute : string := ".pdf,.docx,.txt,.md,.jpg,.jpeg,.png,.webp".

(** * Properties *)

(** ** The timer *)

Section Timer.
Context (p : QuizPlayerProps).

Lemma run_ticks n s :
  run p s (replicate n IntervalFires) = Some (ticks p n s).
Proof.
  revert s; induction n as [|n IH]; intros s; simpl; [done|].
  destruct (tick p s) as [s1 c1]. rewrite IH.
  by destruct (ticks p n s1).
Qed.

(** A cleared interval never fires again. *)
Lemma ticks_cleared n s : timer s = None → ticks p n s = (s, []).
Proof.
  intros Hc. induction n as [|n IH]; simpl; [done|].
  unfold tick. rewrite Hc, IH. done.
Qed.

Lemma tick_running s r :
  timer s = Some r → 1 < timeLeft s →
  tick p s =
    ({| currentQuestionIndex := currentQuestionIndex s; answers := answers s;
        timeLeft := timeLeft s - 1; timer := Some r |},
     saved p r (timeLeft s - 1)).
Proof.
  intros Ht Hl. unfold tick, timerUpdater. rewrite Ht.
  destruct (Z.leb_spec (timeLeft s - 1) 0); [lia|]. done.
Qed.

Lemma tick_expiry s r :
  timer s = Some r → timeLeft s ≤ 1 →
  tick p s =
    ({| currentQuestionIndex := currentQuestionIndex s; answers := answers s;
        timeLeft := 0; timer := None |},
     saved p r (timeLeft s - 1) ++ [handleSubmit p r]).
Proof.
  intros Ht Hl. unfold tick, timerUpdater. rewrite Ht.
  destruct (Z.leb_spec (timeLeft s - 1) 0); [|lia]. done.
Qed.

Lemma submissions_app c1 c2 :
  submissions (c1 ++ c2) = (submissions c1 + submissions c2)%nat.
Proof. unfold submissions. by rewrite filter_app, length_app. Qed.

Lemma submissions_saved r t : submissions (saved p r t) = O.
Proof. unfold saved. by destruct (_ && _). Qed.

Lemma snapshots_app c1 c2 : snapshots (c1 ++ c2) = snapshots c1 ++ snapshots c2.
Proof. unfold snapshots. apply omap_app. Qed.

(** Enough ticks expire the timer, with one submission. *)
Lemma ticks_expire n s r :
  timer s = Some r → timeLeft s ≤ Z.of_nat n → (0 < n)%nat →
  let s' := (ticks p n s).1 in
  timeLeft s' = 0 ∧ timer s' = None ∧
  answers s' = answers s ∧ currentQuestionIndex s' = currentQuestionIndex s ∧
  submissions (ticks p n s).2 = 1%nat.
Proof.
  revert s. induction n as [|n IH]; intros s Ht Hl Hn; [lia|].
  simpl. destruct (decide (timeLeft s ≤ 1)) as [Hle|Hgt].
  - rewrite (tick_expiry s r Ht Hle), ticks_cleared by done. simpl.
    rewrite app_nil_r, submissions_app, submissions_saved. done.
  - rewrite (tick_running s r Ht) by lia.
    match goal with |- context [ticks p n ?s1] =>
      specialize (IH s1); destruct (ticks p n s1) as [s2 c2] eqn:E end.
    simpl in *. destruct IH as (?&?&?&?&?); [done|lia|lia|].
    rewrite submissions_app, submissions_saved. done.
Qed.

(** The snapshots of a run of [n] ticks from remaining time [n]. *)
Lemma ticks_snapshots n s r :
  timer s = Some r → timeLeft s = Z.of_nat n → hasOnProgressUpdate p = true →
  snapshots (ticks p n s).2 =
    map (λ t, (r_answers r, t)) (filter multipleOfFive (countdown n)).
Proof.
  intros Ht Hl Hp. revert s Ht Hl.
  induction n as [|n IH]; intros s Ht Hl; [done|].
  assert (Hsaved : snapshots (saved p r (Z.of_nat n)) =
    map (λ t, (r_answers r, t)) (filter multipleOfFive [Z.of_nat n])).
  { unfold saved. rewrite Hp, andb_true_r, filter_cons, filter_nil.
    by destruct (multipleOfFive (Z.of_nat n)). }
  simpl. destruct n as [|n].
  - rewrite (tick_expiry s r Ht) by lia. simpl.
    rewrite Hl, app_nil_r, snapshots_app.
    change (Z.of_nat 1 - 1) with (Z.of_nat 0). rewrite Hsaved. done.
  - rewrite (tick_running s r Ht) by lia.
    match goal with |- context [ticks p (S n) ?s1] =>
      specialize (IH s1); destruct (ticks p (S n) s1) as [s2 c2] eqn:E end.
    simpl in IH |- *. rewrite snapshots_app, IH by (done || lia).
    replace (timeLeft s - 1) with (Z.of_nat (S n)) by lia.
    rewrite Hsaved. rewrite <- fmap_app. f_equal.
    symmetry. apply (filter_app _ [Z.of_nat (S n)]).
Qed.

Lemma countdown_multiples n :
  Z.of_nat (length (filter multipleOfFive (countdown n)))
  = (Z.of_nat n + 4) / 5.
Proof.
  induction n as [|n IH]; [done|].
  simpl countdown. rewrite filter_cons.
  assert (Hm : multipleOfFive (Z.of_nat n) ↔ Z.of_nat n `mod` 5 = 0).
  { unfold multipleOfFive. rewrite Z.rem_mod_nonneg by lia.
    rewrite Is_true_true. apply Z.eqb_eq. }
  case_decide as Hd; rewrite Hm in Hd.
  - simpl length. rewrite Nat2Z.inj_succ, IH.
    Z.to_euclidean_division_equations; lia.
  - rewrite IH. Z.to_euclidean_division_equations; lia.
Qed.

End Timer.

(** ** Submission *)

(** A submit button calls the [handleSubmit] of the render on the page, which
    sees the current remaining time. *)
Lemma manual_submit p s :
  step p s ClickSubmit =
    Some (s, [onFinish (answers s) (Z.max 0 (allocatedTime (data p) - timeLeft s))]).
Proof. reflexivity. Qed.

(** The submission at expiry is the [handleSubmit] of the render in which the
    timer effect last ran, and reports the remaining time of that render. *)
Lemma expiry_submit p s r :
  timer s = Some r → timeLeft s ≤ 1 →
  filter isFinish (tick p s).2 =
    [onFinish (r_answers r) (Z.max 0 (allocatedTime (data p) - r_timeLeft r))].
Proof.
  intros Ht Hl. rewrite (tick_expiry p s r Ht Hl). simpl.
  rewrite filter_app. unfold saved. by destruct (_ && _).
Qed.

(** What stops the submissions is [clearInterval] alone: the updater itself,
    run at a remaining time of 0, submits. *)
Remark updater_at_zero p r :
  timerUpdater p r 0 = (0, [handleSubmit p r], true).
Proof. reflexivity. Qed.





(** C2, as the code has it: submission is not guarded.  Every invocation of
    [handleSubmit] delivers the (answers, timeSpent) result to [onFinish], so
    two invocations in immediate succession deliver the same result twice. *)
Theorem C2_submission_not_guarded (p : QuizPlayerProps) (s : State) :
  let result :=
    onFinish (answers s) (Z.max 0 (allocatedTime (data p) - timeLeft s)) in
  step p s ClickSubmit = Some (s, [result]) ∧
  run p s [ClickSubmit; ClickSubmit] = Some (s, [result; result]) ∧
  submissions [result; result] = 2%nat.
Proof. by repeat split. Qed.

(** C2 fails as stated: two clicks on submit deliver twice, and so does a
    click that races the expiry of a one-second session. *)
Lemma C2_counterexample :
  let p := freshSession 1 false in
  (∃ s cs, run p (mount p).1 [ClickSubmit; ClickSubmit] = Some (s, cs) ∧
           cs = [onFinish ∅ 0; onFinish ∅ 0] ∧ submissions cs ≠ 1%nat) ∧
  (∃ s cs, run p (mount p).1 [ClickSubmit; IntervalFires] = Some (s, cs) ∧
           cs = [onFinish ∅ 0; onFinish ∅ 0] ∧ submissions cs ≠ 1%nat).
Proof.
  split.
  - exists {| currentQuestionIndex := 0; answers := ∅; timeLeft := 1;
              timer := Some {| r_answers := ∅; r_timeLeft := 1 |} |},
           [onFinish ∅ 0; onFinish ∅ 0].
    repeat split; try (vm_compute; reflexivity). vm_compute; discriminate.
  - exists {| currentQuestionIndex := 0; answers := ∅; timeLeft := 0; timer := None |},
           [onFinish ∅ 0; onFinish ∅ 0].
    repeat split; try (vm_compute; reflexivity). vm_compute; discriminate.
Qed.

(** C3, as the code has it: in a fresh session with a progress collaborator,
    run from allocated time [T > 0] to expiry with no answer change, the
    ticks that report a snapshot are exactly those whose resulting remaining
    time is a multiple of five, the final 0 included; that is
    [(T-1)/5 + 1] snapshots, which is [T/5 + 1] when [T] is not a multiple of
    five and [T/5] when it is. *)
Theorem C3_progress_cadence (p : QuizPlayerProps) (T : Z) :
  hasOnProgressUpdate p = true →
  initialTimeLeft p = None → allocatedTime (data p) = T → 0 < T →
  ∃ s cs,
    run p (mount p).1 (replicate (Z.to_nat T) IntervalFires) = Some (s, cs) ∧
    timeLeft s = 0 ∧
    snapshots cs =
      map (λ t, (answers (mount p).1, t))
          (filter multipleOfFive (countdown (Z.to_nat T))) ∧
    Z.of_nat (length (snapshots cs)) = (T - 1) / 5 + 1 ∧
    (T `mod` 5 ≠ 0 → Z.of_nat (length (snapshots cs)) = T / 5 + 1) ∧
    (T `mod` 5 = 0 → Z.of_nat (length (snapshots cs)) = T / 5).
Proof.
  intros Hp Hfresh Halloc HT.
  set (r := {| r_answers := default ∅ (initialAnswers p);
               r_timeLeft := initialTime p |}).
  assert (Hinit : initialTime p = T) by (unfold initialTime; by rewrite Hfresh).
  pose proof (ticks_expire p (Z.to_nat T) (mount p).1 r) as Hexp.
  pose proof (ticks_snapshots p (Z.to_nat T) (mount p).1 r) as Hsnap.
  destruct (ticks p (Z.to_nat T) (mount p).1) as [s cs] eqn:E.
  destruct Hexp as (Hz & _); [done | simpl; lia | lia |].
  assert (Hs : snapshots cs = map (λ t, (r_answers r, t))
             (filter multipleOfFive (countdown (Z.to_nat T)))).
  { apply Hsnap; [done | simpl; lia | done]. }
  assert (Hlen : Z.of_nat (length (snapshots cs)) = (T - 1) / 5 + 1).
  { rewrite Hs, length_map, countdown_multiples.
    Z.to_euclidean_division_equations; lia. }
  exists s, cs. rewrite run_ticks, E.
  repeat split; try done.
  - intros Hm. rewrite Hlen. Z.to_euclidean_division_equations; lia.
  - intros Hm. rewrite Hlen. Z.to_euclidean_division_equations; lia.
Qed.

Lemma C3_progress_cadence_witness :
  let p := freshSession 12 true in
  hasOnProgressUpdate p = true ∧ initialTimeLeft p = None ∧
  allocatedTime (data p) = 12 ∧ 0 < 12 ∧
  ∃ s cs,
    run p (mount p).1 (replicate (Z.to_nat 12) IntervalFires) = Some (s, cs) ∧
    timeLeft s = 0 ∧
    snapshots cs =
      map (λ t, (answers (mount p).1, t))
          (filter multipleOfFive (countdown (Z.to_nat 12))) ∧
    Z.of_nat (length (snapshots cs)) = (12 - 1) / 5 + 1 ∧
    (12 `mod` 5 ≠ 0 → Z.of_nat (length (snapshots cs)) = 12 / 5 + 1) ∧
    (12 `mod` 5 = 0 → Z.of_nat (length (snapshots cs)) = 12 / 5).
Proof.
  simpl. split; [reflexivity|]. split; [reflexivity|].
  split; [reflexivity|]. split; [lia|].
  apply (C3_progress_cadence (freshSession 12 true) 12);
    [reflexivity | reflexivity | reflexivity | lia].
Defined.

(** C3 fails as stated.  Counting down from 5, the ticks result in 4, 3, 2,
    1, 0 and report one snapshot, not [5/5 + 1 = 2].  Counting in the
    snapshot that mounting reports does not give the formula either: from 12
    the session then reports four snapshots, not [12/5 + 1 = 3]. *)
Lemma C3_counterexample :
  (let p := freshSession 5 true in
   ∃ s cs,
     run p (mount p).1 (replicate 5 IntervalFires) = Some (s, cs) ∧
     timeLeft s = 0 ∧ snapshots cs = [(∅, 0)] ∧
     Z.of_nat (length (snapshots cs)) ≠ 5 / 5 + 1) ∧
  (let p := freshSession 12 true in
   ∃ s cs,
     run p (mount p).1 (replicate 12 IntervalFires) = Some (s, cs) ∧
     timeLeft s = 0 ∧
     snapshots ((mount p).2 ++ cs) = [(∅, 12); (∅, 10); (∅, 5); (∅, 0)] ∧
     Z.of_nat (length (snapshots ((mount p).2 ++ cs))) ≠ 12 / 5 + 1).
Proof.
  split.
  - exists {| currentQuestionIndex := 0; answers := ∅; timeLeft := 0; timer := None |},
           [onProgressUpdate ∅ 0; onFinish ∅ 0].
    repeat split; try (vm_compute; reflexivity). vm_compute; discriminate.
  - exists {| currentQuestionIndex := 0; answers := ∅; timeLeft := 0; timer := None |},
           [onProgressUpdate ∅ 10; onProgressUpdate ∅ 5; onProgressUpdate ∅ 0;
            onFinish ∅ 0].
    repeat split; try (vm_compute; reflexivity). vm_compute; discriminate.
Qed.

(** C9 at the failing input: a fresh session of ten seconds, no answer
    selected, run to expiry.  The submission made at expiry is the
    [handleSubmit] of the first render, whose remaining time is still 10: it
    reports 0 seconds spent, where allocated minus remaining is 10.  A
    submit button pressed at the same remaining time reports 10. *)
Theorem C9_expiry_reports_stale_time :
  let p := freshSession 10 false in
  ∃ s,
    run p (mount p).1 (replicate 10 IntervalFires) = Some (s, [onFinish ∅ 0]) ∧
    timeLeft s = 0 ∧
    Z.max 0 (allocatedTime (data p) - timeLeft s) = 10 ∧
    step p s ClickSubmit = Some (s, [onFinish ∅ 10]).
Proof.
  exists {| currentQuestionIndex := 0; answers := ∅; timeLeft := 0; timer := None |}.
  repeat split; vm_compute; reflexivity.
Qed.

(** C10: the remaining time at session start is [initialTimeLeft] when it is
    not null, 0 included, in which case the first tick already submits;
    otherwise [timeLimit] when it is a nonzero number; otherwise 60 seconds
    per question.  The allocated time of the elapsed-time calculation is the
    same [timeLimit]-or-fallback value. *)
Theorem C10_initial_time (p : QuizPlayerProps) (s : State) :
  let fallback := questionCount (data p) * 60 in
  let allocated :=
    match timeLimit (data p) with
    | Some l => if bool_decide (l = 0) then fallback else l
    | None => fallback
    end in
  timeLeft (mount p).1 =
    match initialTimeLeft p with
    | Some t => t
    | None => allocated
    end ∧
  step p s ClickSubmit =
    Some (s, [onFinish (answers s) (Z.max 0 (allocated - timeLeft s))]) ∧
  let atBrink :=
    {| data := data p; initialAnswers := initialAnswers p;
       initialTimeLeft := Some 0;
       hasOnProgressUpdate := hasOnProgressUpdate p |} in
  timeLeft (mount atBrink).1 = 0 ∧
  submissions (tick atBrink (mount atBrink).1).2 = 1%nat.
Proof.
  assert (Ha : allocatedTime (data p) =
    match timeLimit (data p) with
    | Some l => if bool_decide (l = 0) then questionCount (data p) * 60 else l
    | None => questionCount (data p) * 60
    end).
  { unfold allocatedTime. destruct (timeLimit (data p)) as [l|]; [|done].
    destruct (Z.eqb_spec l 0);
      [by rewrite bool_decide_true | by rewrite bool_decide_false]. }
  simpl. rewrite <- Ha. split; [|split; [|split]].
  - unfold initialTime. by destruct (initialTimeLeft p).
  - reflexivity.
  - reflexivity.
  - reflexivity.
Qed.

(** ** Navigation *)

Lemma setPosition_spec_in_range n i : 0 ≤ i ≤ n - 1 → setPosition_spec n i = i.
Proof. unfold setPosition_spec. lia. Qed.

Lemma setPosition_spec_below n i : 0 < n → i < 0 → setPosition_spec n i = 0.
Proof. unfold setPosition_spec. lia. Qed.

Lemma setPosition_spec_above n i : 0 < n → n - 1 < i → setPosition_spec n i = n - 1.
Proof. unfold setPosition_spec. lia. Qed.

(** C4: from a valid position in a session over [n] questions, every
    navigation path (arrow keys and Enter, the previous and next buttons, the
    index buttons of the sidebar) sets the position to the requested index
    clamped to [[0, n-1]]: the index itself when it is in range, the nearest
    boundary when it is not.  The request is never rejected and nothing else
    changes. *)
Theorem C4_position_clamped (p : QuizPlayerProps) (s : State) (path : NavPath) :
  let n := questionCount (data p) in
  let i := requestedIndex (currentQuestionIndex s) path in
  0 ≤ currentQuestionIndex s < n →
  (∀ idx, path = IndexButton idx → Z.of_nat idx < n) →
  ∃ s',
    step p s (navEvent path) = Some (s', []) ∧
    currentQuestionIndex s' = setPosition_spec n i ∧
    (0 ≤ i ≤ n - 1 → currentQuestionIndex s' = i) ∧
    (i < 0 → currentQuestionIndex s' = 0) ∧
    (n - 1 < i → currentQuestionIndex s' = n - 1) ∧
    answers s' = answers s ∧ timeLeft s' = timeLeft s ∧ timer s' = timer s.
Proof.
  intros n i Hcur Hidx.
  assert (∃ s', step p s (navEvent path) = Some (s', []) ∧
    currentQuestionIndex s' = setPosition_spec n i ∧
    answers s' = answers s ∧ timeLeft s' = timeLeft s ∧ timer s' = timer s)
    as (s' & Hstep & Hpos & Hrest).
  { subst n i. unfold setPosition_spec.
    destruct path as [| | | | |idx]; simpl.
    - eexists; split; [reflexivity|]. simpl. unfold previousIndex. split; [lia|done].
    - eexists; split; [reflexivity|]. simpl. unfold nextIndex. split; [lia|done].
    - eexists; split; [reflexivity|]. simpl. unfold nextIndex. split; [lia|done].
    - destruct (Z.eqb_spec (currentQuestionIndex s) 0).
      + eexists; split; [reflexivity|]. split; [lia|done].
      + eexists; split; [reflexivity|]. simpl. unfold previousIndex. split; [lia|done].
    - destruct (Z.eqb_spec (currentQuestionIndex s) (questionCount (data p) - 1)).
      + eexists; split; [reflexivity|]. split; [lia|done].
      + eexists; split; [reflexivity|]. simpl. unfold nextIndex. split; [lia|done].
    - specialize (Hidx idx eq_refl). unfold questionCount in Hidx.
      destruct (lookup_lt_is_Some_2 (questions (data p)) idx) as [q ->]; [lia|].
      eexists; split; [reflexivity|]. simpl. unfold questionCount. split; [lia|done]. }
  exists s'. rewrite Hpos. split; [done|]. split; [done|].
  split; [apply setPosition_spec_in_range|].
  split; [apply setPosition_spec_below; lia|].
  split; [apply setPosition_spec_above; lia|done].
Qed.

(** ** The starting question *)

Lemma findIndexFrom_none {A} (f : A → bool) i l :
  (∀ x, x ∈ l → f x = false) → findIndexFrom f i l = -1.
Proof.
  revert i. induction l as [|x l IH]; intros i H; simpl; [done|].
  rewrite (H x) by left. apply IH. intros y Hy. apply H. by right.
Qed.

Lemma findIndexFrom_first {A} (f : A → bool) i l k x :
  l !! k = Some x → f x = true →
  (∀ j y, (j < k)%nat → l !! j = Some y → f y = false) →
  findIndexFrom f i l = i + Z.of_nat k.
Proof.
  revert i k. induction l as [|y l IH]; intros i k Hk Hx Hbefore; [done|].
  destruct k as [|k]; simpl in *.
  - injection Hk as ->. rewrite Hx. lia.
  - rewrite (Hbefore O y) by (done || lia).
    rewrite (IH (i + 1) k) by
      (try done; intros j z Hj Hz; apply (Hbefore (S j) z); (done || lia)).
    lia.
Qed.

(** For an answer map without empty keys, an entry is truthy exactly when it
    is there. *)
Lemma truthy_lookup (ia : UserAnswers) (i : Z) :
  (∀ j k, ia !! j = Some k → k ≠ "") →
  truthy (ia !! i) = bool_decide (is_Some (ia !! i)).
Proof.
  intros Hne. destruct (ia !! i) as [k|] eqn:E.
  - rewrite bool_decide_true by eauto. unfold truthy.
    destruct (String.eqb_spec k ""); [by apply Hne in E|done].
  - rewrite bool_decide_false; [done|]. by intros [? ?].
Qed.

(** C5: in a session resumed with a nonempty map of prior answers (whose
    recorded keys are option keys, hence not the empty string), the initial
    position is the index, in display order, of the first question without a
    recorded answer, and 0 when every question has one.  Prior answers
    [{1: "A"}] over the questions 1, 2, 3 start at index 1. *)
Theorem C5_resume_position (p : QuizPlayerProps) (ia : UserAnswers) :
  initialAnswers p = Some ia → ia ≠ ∅ →
  (∀ j k, ia !! j = Some k → k ≠ "") →
  let pos := currentQuestionIndex (mount p).1 in
  (∀ i q, questions (data p) !! i = Some q → ia !! qid q = None →
          (∀ j q', (j < i)%nat → questions (data p) !! j = Some q' →
                   is_Some (ia !! qid q')) →
          pos = Z.of_nat i) ∧
  ((∀ q, q ∈ questions (data p) → is_Some (ia !! qid q)) → pos = 0) ∧
  currentQuestionIndex (mount resumedSession).1 = 1.
Proof.
  intros Hia Hne Hkeys. simpl. rewrite Hia. simpl. unfold startIndex.
  assert (Hsize : (0 < size ia)%nat).
  { destruct (decide (size ia = O)) as [Hz|]; [|lia].
    by apply map_size_empty_iff in Hz. }
  rewrite bool_decide_true by done. unfold findIndex.
  split; [|split; [|reflexivity]].
  - intros i q Hq Hnone Hbefore.
    rewrite (findIndexFrom_first _ 0 _ i q Hq).
    + destruct (Z.eqb_spec (0 + Z.of_nat i) (-1)); lia.
    + by rewrite Hnone.
    + intros j q' Hj Hq'. rewrite truthy_lookup by done.
      rewrite bool_decide_true; [done|]. by apply (Hbefore j).
  - intros Hall. rewrite findIndexFrom_none; [done|].
    intros q Hq. rewrite truthy_lookup by done.
    rewrite bool_decide_true; [done|]. by apply Hall.
Qed.

(** The effect tests truthiness, not presence: a recorded empty key counts as
    unanswered.  Option keys are single letters, so no session records one. *)
Remark startIndex_empty_key :
  startIndex (quizABC None) {[ 1 := ""%string; 2 := "B"%string ]} = 0.
Proof. reflexivity. Qed.

Lemma C5_resume_position_witness :
  let p := resumedSession in
  let ia : UserAnswers := {[ 1 := "A"%string ]} in
  initialAnswers p = Some ia ∧ ia ≠ ∅ ∧
  (∀ j k, ia !! j = Some k → k ≠ "") ∧
  (∀ i q, questions (data p) !! i = Some q → ia !! qid q = None →
          (∀ j q', (j < i)%nat → questions (data p) !! j = Some q' →
                   is_Some (ia !! qid q')) →
          currentQuestionIndex (mount p).1 = Z.of_nat i) ∧
  ((∀ q, q ∈ questions (data p) → is_Some (ia !! qid q)) →
   currentQuestionIndex (mount p).1 = 0) ∧
  currentQuestionIndex (mount resumedSession).1 = 1.
Proof.
  assert (Hne : ({[ 1 := "A"%string ]} : UserAnswers) ≠ ∅).
  { intros H. apply (f_equal (λ m : UserAnswers, m !! 1)) in H.
    vm_compute in H. discriminate. }
  assert (Hkeys : ∀ j k, ({[ 1 := "A"%string ]} : UserAnswers) !! j = Some k → k ≠ "").
  { intros j k H. apply lookup_singleton_Some in H as [_ <-]. discriminate. }
  split; [reflexivity|]. split; [exact Hne|]. split; [exact Hkeys|].
  exact (C5_resume_position resumedSession {[ 1 := "A"%string ]} eq_refl Hne Hkeys).
Defined.

Lemma C4_position_clamped_witness :
  let p := freshSession 60 false in
  let s := setCurrentQuestionIndex (mount p).1 2 in
  0 ≤ currentQuestionIndex s < questionCount (data p) ∧
  (∀ idx, NextButton = IndexButton idx → Z.of_nat idx < questionCount (data p)) ∧
  ∃ s',
    step p s (navEvent NextButton) = Some (s', []) ∧
    currentQuestionIndex s' = setPosition_spec 3 3 ∧
    (0 ≤ 3 ≤ 3 - 1 → currentQuestionIndex s' = 3) ∧
    (3 < 0 → currentQuestionIndex s' = 0) ∧
    (3 - 1 < 3 → currentQuestionIndex s' = 3 - 1) ∧
    answers s' = answers s ∧ timeLeft s' = timeLeft s ∧ timer s' = timer s.
Proof.
  assert (H1 : 0 ≤ 2 < 3) by lia.
  assert (H2 : ∀ idx, NextButton = IndexButton idx → Z.of_nat idx < 3)
    by (intros idx H; discriminate H).
  split; [exact H1|]. split; [exact H2|].
  exact (C4_position_clamped (freshSession 60 false)
           (setCurrentQuestionIndex (mount (freshSession 60 false)).1 2)
           NextButton H1 H2).
Defined.

(** ** The keyboard *)

Lemma hasOption_spec q k :
  hasOption q k = true ↔ ∃ o, o ∈ options q ∧ key o = k.
Proof.
  unfold hasOption. rewrite existsb_exists. split.
  - intros (o & Hin & Heq). exists o. split; [by apply list_elem_of_In|].
    by apply String.eqb_eq.
  - intros (o & Hin & Heq). exists o. split; [by apply list_elem_of_In|].
    by apply String.eqb_eq.
Qed.

(** C6: on a key event at a valid position, the listener raises no error; it
    changes the answer map only when the key maps (1/a/A to "A", 2/b/B to
    "B", 3/c/C to "C", 4/d/D to "D") to an option key of the current
    question, and then records that key; a key whose mapped option is not
    among the current question's options, and a key that is neither mapped
    nor a navigation key, leave the whole state as it is and make no call. *)
Theorem C6_key_events (p : QuizPlayerProps) (s : State) (e : KeyboardEvent)
    (q : Question) :
  currentQuestion p s = Some q →
  (∃ res, handleKeyDown p s e = Some res) ∧
  (∀ s' cs, handleKeyDown p s e = Some (s', cs) → answers s' ≠ answers s →
     ∃ k, mappedKey (e_key e) = Some k ∧
          (∃ o, o ∈ options q ∧ key o = k) ∧
          answers s' = <[qid q := k]> (answers s)) ∧
  (∀ k, e_targetIsInput e = false → mappedKey (e_key e) = Some k →
        (∃ o, o ∈ options q ∧ key o = k) →
        handleKeyDown p s e = Some (handleSelectOption p s (qid q) k)) ∧
  (∀ k, mappedKey (e_key e) = Some k →
        ¬ (∃ o, o ∈ options q ∧ key o = k) →
        handleKeyDown p s e = Some (s, [])) ∧
  (mappedKey (e_key e) = None → isNavigationKey (e_key e) = false →
   handleKeyDown p s e = Some (s, [])) ∧
  map mappedKey ["1"; "a"; "A"; "2"; "b"; "B"; "3"; "c"; "C"; "4"; "d"; "D"]
  = [Some "A"; Some "A"; Some "A"; Some "B"; Some "B"; Some "B";
     Some "C"; Some "C"; Some "C"; Some "D"; Some "D"; Some "D"]%string.
Proof.
  intros Hq. unfold handleKeyDown, mappedKey, isNavigationKey. rewrite Hq.
  destruct (e_targetIsInput e), (switchKey (e_key e)) as [| |k|] eqn:Hk;
    try destruct (hasOption q k) eqn:Hopt;
    (split; [eauto|]); (split; [|repeat split]); try done;
    try (intros s' cs [= <- <-] Hneq; done);
    try (intros k' _ [= <-] Hex; apply hasOption_spec in Hex; congruence);
    try (intros k' [= <-] Hnex; exfalso; apply Hnex; by apply hasOption_spec).
  intros s' cs [= <- <-] _. exists k. split; [done|].
  split; [by apply hasOption_spec|done].
Qed.

Lemma C6_key_events_witness :
  let p := freshSession 60 false in
  let s := (mount p).1 in
  let e := {| e_key := "x"; e_targetIsInput := false |} in
  currentQuestion p s = Some (question 1 "A") ∧
  handleKeyDown p s e = Some (s, []).
Proof.
  split; [reflexivity|].
  apply (C6_key_events (freshSession 60 false) (mount (freshSession 60 false)).1
           {| e_key := "x"; e_targetIsInput := false |} (question 1 "A") eq_refl);
    reflexivity.
Defined.

(** ** Scoring *)

Lemma scorerFlag_isCorrect a q : scorerFlag a q = isCorrect a q.
Proof.
  unfold scorerFlag, isCorrect. destruct (a !! qid q) as [k|]; [|done].
  destruct (String.eqb_spec k (correctAnswer q)) as [->|Hne].
  - by rewrite bool_decide_true.
  - rewrite bool_decide_false; [done|]. by intros [= ?].
Qed.

Lemma scorerCount_flags a qs :
  scorerCount a qs = length (filter (λ b : bool, b) (map (scorerFlag a) qs)).
Proof.
  induction qs as [|q qs IH]; [done|].
  simpl. rewrite filter_cons. destruct (scorerFlag a q); simpl; by rewrite IH.
Qed.

(** The sidebar colours a question only when it is answered; a correct flag
    implies an answered one as soon as the correct key is not empty. *)
Lemma isCorrect_isAnswered a q :
  correctAnswer q ≠ "" → isCorrect a q = true → isAnswered a q = true.
Proof.
  unfold isCorrect, isAnswered. intros Hne H.
  apply bool_decide_eq_true in H. rewrite H. simpl.
  by destruct (String.eqb_spec (correctAnswer q) "").
Qed.

(** C7: the correctness flag of a question is true exactly when the recorded
    answer is the question's [correctAnswer]; an unanswered question is
    incorrect; the score is the number of true flags.  Three questions with
    correct answers A, B, C and the answers [{1: "A", 2: "X"}] score 1 of 3
    with flags [true, false, false]. *)
Theorem C7_scoring (d : QuizData) (a : UserAnswers) :
  (∀ q, isCorrect a q = true ↔ a !! qid q = Some (correctAnswer q)) ∧
  (∀ q, isCorrect a q =
        match a !! qid q with
        | Some k => bool_decide (k = correctAnswer q)
        | None => false
        end) ∧
  (scorer d a).2 = map (isCorrect a) (questions d) ∧
  (scorer d a).1 = length (filter (λ b : bool, b) (scorer d a).2) ∧
  map correctAnswer (questions (quizABC None)) = ["A"; "B"; "C"]%string ∧
  scorer (quizABC None) {[ 1 := "A"; 2 := "X" ]}%string
  = (1%nat, [true; false; false]).
Proof.
  split; [|split; [|split; [|split; [|split]]]].
  - intros q. unfold isCorrect. apply bool_decide_eq_true.
  - intros q. unfold isCorrect. destruct (a !! qid q) as [k|].
    + apply bool_decide_ext. split; [by intros [= ?]|by intros ->].
    + by rewrite bool_decide_false.
  - simpl. apply map_ext. intros q. apply scorerFlag_isCorrect.
  - simpl. apply scorerCount_flags.
  - reflexivity.
  - reflexivity.
Qed.

(** ** The remaining time *)

Lemma tick_timeLeft p s :
  0 ≤ timeLeft s → 0 ≤ timeLeft (tick p s).1 ≤ timeLeft s.
Proof.
  intros H. unfold tick, timerUpdater. destruct (timer s); [|simpl; lia].
  destruct (Z.leb_spec (timeLeft s - 1) 0); simpl; lia.
Qed.

Lemma handleKeyDown_timeLeft p s e s' cs :
  handleKeyDown p s e = Some (s', cs) → timeLeft s' = timeLeft s.
Proof.
  unfold handleKeyDown, handleSelectOption, commitAnswers. intros H.
  repeat case_match; by simplify_eq.
Qed.

Lemma step_timeLeft p s ev s' cs :
  step p s ev = Some (s', cs) → 0 ≤ timeLeft s → 0 ≤ timeLeft s' ≤ timeLeft s.
Proof.
  intros H H0. destruct ev; simpl in H;
    unfold handleSelectOption, commitAnswers in H.
  - injection H as H. pose proof (tick_timeLeft p s H0) as Ht.
    by rewrite H in Ht.
  - apply handleKeyDown_timeLeft in H. lia.
  - case_match; simplify_eq; simpl; lia.
  - case_match; simplify_eq; simpl; lia.
  - case_match; simplify_eq; simpl; lia.
  - repeat case_match; simplify_eq; simpl; lia.
  - simplify_eq. lia.
Qed.

Lemma run_timeLeft p evs s s' cs :
  run p s evs = Some (s', cs) → 0 ≤ timeLeft s → 0 ≤ timeLeft s' ≤ timeLeft s.
Proof.
  revert s cs. induction evs as [|ev evs IH]; intros s cs H H0; simpl in H.
  - simplify_eq. lia.
  - destruct (step p s ev) as [[s1 c1]|] eqn:E1; [|done].
    destruct (run p s1 evs) as [[s2 c2]|] eqn:E2; [|done]. simplify_eq.
    apply step_timeLeft in E1; [|done]. apply IH in E2; lia.
Qed.




(** * Further properties of the session *)

(** ** The position stays on a question *)

Lemma findIndexFrom_range {A} (f : A → bool) i l :
  findIndexFrom f i l = -1 ∨
  i ≤ findIndexFrom f i l < i + Z.of_nat (length l).
Proof.
  revert i. induction l as [|x l IH]; intros i; simpl; [by left|].
  destruct (f x); [right; lia|].
  destruct (IH (i + 1)) as [->|?]; [by left|right; lia].
Qed.

Lemma startIndex_range d ia :
  questions d ≠ [] → 0 ≤ startIndex d ia < questionCount d.
Proof.
  intros Hne. unfold startIndex, questionCount, findIndex.
  assert (0 < Z.of_nat (length (questions d))).
  { destruct (questions d); [done|simpl; lia]. }
  case_bool_decide; [|lia].
  destruct (findIndexFrom_range (λ q, negb (truthy (ia !! qid q))) 0
              (questions d)) as [->|?]; [simpl; lia|].
  destruct (Z.eqb_spec (findIndexFrom (λ q, negb (truthy (ia !! qid q))) 0
              (questions d)) (-1)); lia.
Qed.

Lemma at_index_is_Some {A} (l : list A) i :
  0 ≤ i < Z.of_nat (length l) → is_Some (at_index l i).
Proof.
  intros H. unfold at_index. destruct (Z.ltb_spec i 0); [lia|].
  apply lookup_lt_is_Some. lia.
Qed.

Lemma at_index_elem {A} (l : list A) i x : at_index l i = Some x → x ∈ l.
Proof.
  unfold at_index. destruct (i <? 0); [done|].
  intros H. by apply list_elem_of_lookup_2 in H.
Qed.

Lemma step_validPosition p s ev :
  validPosition p s →
  ∃ s' cs, step p s ev = Some (s', cs) ∧ validPosition p s'.
Proof.
  unfold validPosition. intros Hv.
  destruct (at_index_is_Some (questions (data p)) (currentQuestionIndex s))
    as [q Hq]; [done|].
  destruct ev as [|e|idx| | |i|]; simpl.
  - destruct (tick p s) as [s' cs] eqn:E. exists s', cs. split; [done|].
    unfold tick, timerUpdater in E.
    destruct (timer s); [destruct (_ <=? _)|]; by simplify_eq.
  - unfold handleKeyDown, currentQuestion. rewrite Hq.
    unfold previousIndex, nextIndex, handleSelectOption, commitAnswers.
    destruct (e_targetIsInput e); [by eauto|].
    destruct (switchKey (e_key e)) as [| |k|]; try destruct (hasOption q k);
      eexists _, _; (split; [done|]); simpl; lia.
  - destruct (questions (data p) !! idx) as [q'|] eqn:E; [|by eauto].
    eexists _, _; split; [done|]. simpl.
    apply lookup_lt_Some in E. unfold questionCount. lia.
  - unfold previousIndex. destruct (_ =? _);
      eexists _, _; (split; [done|]); simpl; lia.
  - unfold nextIndex. destruct (_ =? _);
      eexists _, _; (split; [done|]); simpl; lia.
  - unfold currentQuestion. rewrite Hq.
    unfold handleSelectOption, commitAnswers.
    destruct (options q !! i); [case_bool_decide|]; by eauto.
  - by eauto.
Qed.

(** X1: over a quiz with at least one question, no sequence of events makes
    the component raise: the run is defined, and it ends on a position that
    is the index of a question, so that the current question the render and
    the key listener dereference exists. *)
Theorem X1_session_never_raises (p : QuizPlayerProps) (evs : list Event) :
  questions (data p) ≠ [] →
  ∃ s cs,
    run p (mount p).1 evs = Some (s, cs) ∧
    0 ≤ currentQuestionIndex s < questionCount (data p) ∧
    is_Some (currentQuestion p s).
Proof.
  intros Hne.
  assert (Hgen : ∀ s0, validPosition p s0 →
            ∃ s cs, run p s0 evs = Some (s, cs) ∧ validPosition p s).
  { induction evs as [|ev evs IH]; intros s0 Hv; simpl; [by eauto|].
    destruct (step_validPosition p s0 ev Hv) as (s1 & c1 & -> & Hv1).
    destruct (IH s1 Hv1) as (s2 & c2 & -> & Hv2). by eauto. }
  destruct (Hgen (mount p).1) as (s & cs & Hrun & Hv).
  { apply startIndex_range, Hne. }
  exists s, cs. split; [done|]. split; [done|].
  by apply at_index_is_Some.
Qed.

Lemma X1_session_never_raises_witness :
  let p := freshSession 60 true in
  let evs := [keyPress "ArrowLeft"; keyPress "d"; ClickNext; ClickNext;
              ClickNext; IntervalFires; ChangeOption 7; ClickQuestion 9] in
  questions (data p) ≠ [] ∧
  ∃ s cs,
    run p (mount p).1 evs = Some (s, cs) ∧
    0 ≤ currentQuestionIndex s < questionCount (data p) ∧
    is_Some (currentQuestion p s).
Proof.
  assert (H : questions (data (freshSession 60 true)) ≠ []) by discriminate.
  split; [exact H|].
  exact (X1_session_never_raises (freshSession 60 true) _ H).
Defined.

(** ** What a step can be *)

Lemma step_cases p s ev s' cs :
  step p s ev = Some (s', cs) →
  (s', cs) = tick p s ∨
  (∃ i, s' = setCurrentQuestionIndex s i ∧ cs = []) ∨
  (s' = s ∧ cs = []) ∨
  (s' = s ∧ cs = [handleSubmit p (currentRender s)]) ∨
  (∃ q o, currentQuestion p s = Some q ∧ o ∈ options q ∧
          (s', cs) = handleSelectOption p s (qid q) (key o)).
Proof.
  destruct ev as [|e|idx| | |i|]; simpl; intros H.
  - left. by simplify_eq.
  - unfold handleKeyDown in H.
    destruct (e_targetIsInput e); [simplify_eq; by auto|].
    destruct (switchKey (e_key e)) as [| |k|]; try (simplify_eq; by eauto 6).
    destruct (currentQuestion p s) as [q|] eqn:Hq; [|done].
    destruct (hasOption q k) eqn:Hk; [|simplify_eq; by auto].
    apply hasOption_spec in Hk as (o & Ho & <-).
    simplify_eq. do 4 right. by eauto.
  - destruct (questions (data p) !! idx); simplify_eq; by eauto 6.
  - destruct (_ =? _); simplify_eq; by eauto 6.
  - destruct (_ =? _); simplify_eq; by eauto 6.
  - destruct (currentQuestion p s) as [q|] eqn:Hq; [|simplify_eq; by auto].
    destruct (options q !! i) as [o|] eqn:Ho; [|simplify_eq; by auto].
    case_bool_decide; [simplify_eq; by auto|].
    apply list_elem_of_lookup_2 in Ho.
    simplify_eq. do 4 right. by eauto.
  - simplify_eq. do 3 right. by left.
Qed.

Lemma run_invariant p (I : State → Prop) :
  (∀ s ev s' cs, I s → step p s ev = Some (s', cs) → I s') →
  ∀ evs s s' cs, I s → run p s evs = Some (s', cs) → I s'.
Proof.
  intros Hstep. induction evs as [|ev evs IH]; intros s s' cs Hs H; simpl in H.
  - by simplify_eq.
  - destruct (step p s ev) as [[s1 c1]|] eqn:E1; [|done].
    destruct (run p s1 evs) as [[s2 c2]|] eqn:E2; [|done]. simplify_eq.
    eapply IH; [|done]. by eapply Hstep.
Qed.

Lemma tick_answers p s : answers (tick p s).1 = answers s.
Proof.
  unfold tick, timerUpdater.
  destruct (timer s); [destruct (_ <=? _)|]; done.
Qed.

(** ** The answer map *)

(** X2: every answer the session holds is either one of the prior answers
    it was resumed with, or the key of an option that the question with that
    identifier offers: neither the keyboard nor the page records a key that
    the question does not have. *)
Theorem X2_recorded_answers_are_offered (p : QuizPlayerProps)
    (evs : list Event) (s : State) (cs : list Call) (i : Z) (k : string) :
  run p (mount p).1 evs = Some (s, cs) →
  answers s !! i = Some k →
  default ∅ (initialAnswers p) !! i = Some k ∨ offered p i k.
Proof.
  intros Hrun. revert i k.
  apply (run_invariant p
    (λ s, ∀ i k, answers s !! i = Some k →
                 default ∅ (initialAnswers p) !! i = Some k ∨ offered p i k))
    with (evs := evs) (s := (mount p).1) (cs := cs); [|by auto|done].
  clear. intros s ev s' cs Hinv Hstep i k.
  destruct (step_cases _ _ _ _ _ Hstep)
    as [E|[(j & -> & _)|[[-> _]|[[-> _]|(q & o & Hq & Ho & E)]]]]; try by auto.
  - assert (answers s' = answers s) as ->; [|by auto].
    rewrite <- (tick_answers p s). by rewrite <- E.
  - injection E as -> _. simpl.
    destruct (decide (qid q = i)) as [<-|Hne].
    + rewrite lookup_insert_eq. intros [= <-]. right.
      exists q, o. split; [by eapply at_index_elem|done].
    + rewrite lookup_insert_ne by done. by auto.
Qed.

Lemma X2_recorded_answers_are_offered_witness :
  let p := resumedSession in
  let s := {| currentQuestionIndex := 1;
              answers := {[ 1 := "A"%string; 2 := "C"%string ]};
              timeLeft := 100;
              timer := Some {| r_answers := {[ 1 := "A"%string; 2 := "C"%string ]};
                               r_timeLeft := 100 |} |} in
  run p (mount p).1 [keyPress "3"] = Some (s, [onProgressUpdate (answers s) 100]) ∧
  answers s !! 2 = Some "C"%string ∧
  (default ∅ (initialAnswers p) !! 2 = Some "C"%string ∨ offered p 2 "C").
Proof.
  split; [vm_compute; reflexivity|]. split; [vm_compute; reflexivity|].
  eapply (X2_recorded_answers_are_offered resumedSession [keyPress "3"]);
    vm_compute; reflexivity.
Defined.

Lemma step_answers_kept p s ev s' cs :
  step p s ev = Some (s', cs) →
  ∀ i, answers s' !! i = answers s !! i ∨
       ∃ q k, currentQuestion p s = Some q ∧ i = qid q ∧
              answers s' !! i = Some k.
Proof.
  intros Hstep i.
  destruct (step_cases _ _ _ _ _ Hstep)
    as [E|[(j & -> & _)|[[-> _]|[[-> _]|(q & o & Hq & Ho & E)]]]]; try by auto.
  - left. assert (answers s' = answers s) as ->; [|done].
    rewrite <- (tick_answers p s). by rewrite <- E.
  - injection E as -> _. simpl.
    destruct (decide (qid q = i)) as [<-|Hne].
    + right. exists q, (key o). by rewrite lookup_insert_eq.
    + left. by rewrite lookup_insert_ne.
Qed.

(** X3: no operation removes an answer.  Along any run the set of answered
    identifiers only grows, and an entry that differs at the end from what it
    was at the start belongs to a question of the quiz. *)
Theorem X3_answers_only_grow (p : QuizPlayerProps) (evs : list Event)
    (s s' : State) (cs : list Call) :
  run p s evs = Some (s', cs) →
  dom (answers s) ⊆ dom (answers s') ∧
  ∀ i, answers s' !! i ≠ answers s !! i →
       ∃ q, q ∈ questions (data p) ∧ qid q = i.
Proof.
  revert s cs. induction evs as [|ev evs IH]; intros s cs H; simpl in H.
  - simplify_eq. split; [done|]. by intros i [].
  - destruct (step p s ev) as [[s1 c1]|] eqn:E1; [|done].
    destruct (run p s1 evs) as [[s2 c2]|] eqn:E2; [|done]. simplify_eq.
    destruct (IH _ _ E2) as [Hdom Hchg].
    pose proof (step_answers_kept _ _ _ _ _ E1) as Hkept.
    split.
    + etrans; [|exact Hdom]. intros i. rewrite !elem_of_dom.
      destruct (Hkept i) as [->|(q & k & _ & _ & ->)]; by eauto.
    + intros i Hne.
      destruct (decide (answers s' !! i = answers s1 !! i)) as [Heq|]; [|by auto].
      destruct (Hkept i) as [Hi|(q & k & Hq & -> & _)]; [congruence|].
      exists q. split; [by eapply at_index_elem|done].
Qed.

Lemma X3_answers_only_grow_witness :
  let p := resumedSession in
  let s' := {| currentQuestionIndex := 2;
               answers := {[ 1 := "A"%string; 2 := "B"%string ]};
               timeLeft := 100;
               timer := Some {| r_answers := {[ 1 := "A"%string; 2 := "B"%string ]};
                                r_timeLeft := 100 |} |} in
  run p (mount p).1 [keyPress "b"; keyPress "Enter"]
    = Some (s', [onProgressUpdate (answers s') 100]) ∧
  dom (answers (mount p).1) ⊆ dom (answers s') ∧
  ∀ i, answers s' !! i ≠ answers (mount p).1 !! i →
       ∃ q, q ∈ questions (data p) ∧ qid q = i.
Proof.
  split; [vm_compute; reflexivity|].
  eapply (X3_answers_only_grow resumedSession [keyPress "b"; keyPress "Enter"]).
  vm_compute; reflexivity.
Defined.

Lemma selectAll_snoc p s ws w :
  selectAll p s (ws ++ [w]) = (handleSelectOption p (selectAll p s ws) w.1 w.2).1.
Proof. unfold selectAll. by rewrite foldl_snoc. Qed.

(** X4: the latest write wins.  After any sequence of selections, the answer
    recorded for a question is the key selected last for it, whatever was
    selected for it before and whatever was selected for other questions in
    between; a question that was not selected keeps its entry. *)
Theorem X4_latest_write_wins (p : QuizPlayerProps) (s : State)
    (ws : list (Z * string)) (i : Z) :
  answers (selectAll p s ws) !! i =
    match lastWrite i ws with
    | Some k => Some k
    | None => answers s !! i
    end.
Proof.
  induction ws as [|[j k] ws IH] using rev_ind; [done|].
  rewrite selectAll_snoc. simpl. unfold lastWrite in *.
  rewrite filter_app, filter_cons, filter_nil. simpl.
  destruct (decide (j = i)) as [->|Hne].
  - rewrite lookup_insert_eq, last_snoc. done.
  - rewrite lookup_insert_ne, app_nil_r by done. exact IH.
Qed.

(** ** What the collaborators receive *)

Lemma mount_closureCurrent p : closureCurrent (mount p).1.
Proof. intros r [= <-]. simpl. split; [done|lia]. Qed.

Lemma step_closureCurrent p s ev s' cs :
  closureCurrent s → step p s ev = Some (s', cs) → closureCurrent s'.
Proof.
  unfold closureCurrent. intros Hinv Hstep.
  destruct (step_cases _ _ _ _ _ Hstep)
    as [E|[(j & -> & _)|[[-> _]|[[-> _]|(q & o & Hq & Ho & E)]]]]; try by auto.
  - unfold tick, timerUpdater in E.
    destruct (timer s) as [r0|] eqn:Ht;
      [|simplify_eq; intros r Hr; congruence].
    destruct (Hinv r0 eq_refl) as [Ha Hl].
    destruct (Z.leb_spec (timeLeft s - 1) 0); simplify_eq; [done|].
    intros r [= <-]. simpl. split; [done|lia].
  - injection E as -> _. intros r [= <-]. simpl. split; [done|lia].
Qed.

Lemma run_closureCurrent p evs s cs :
  run p (mount p).1 evs = Some (s, cs) → closureCurrent s.
Proof.
  apply (run_invariant p closureCurrent); [|apply mount_closureCurrent].
  intros ?????. by eapply step_closureCurrent.
Qed.

Lemma snapshots_saved p r nv a t :
  (a, t) ∈ snapshots (saved p r nv) →
  a = r_answers r ∧ t = nv ∧ Z.rem nv 5 = 0.
Proof.
  unfold saved, multipleOfFive.
  destruct (Z.eqb_spec (Z.rem nv 5) 0); destruct (hasOnProgressUpdate p);
    simpl; intros Hin; try (by apply elem_of_nil in Hin).
  apply list_elem_of_singleton in Hin. by simplify_eq.
Qed.

Lemma results_saved p r nv : results (saved p r nv) = [].
Proof. unfold saved. by destruct (_ && _). Qed.

Lemma tick_cases p s s' cs :
  (s', cs) = tick p s →
  (s' = s ∧ cs = []) ∨
  ∃ r, timer s = Some r ∧ answers s' = answers s ∧
       ((1 < timeLeft s ∧ timeLeft s' = timeLeft s - 1 ∧
         cs = saved p r (timeLeft s - 1)) ∨
        (timeLeft s ≤ 1 ∧ timeLeft s' = 0 ∧
         cs = saved p r (timeLeft s - 1) ++ [handleSubmit p r])).
Proof.
  intros E. destruct (timer s) as [r|] eqn:Ht.
  - right. exists r. split; [done|].
    destruct (decide (timeLeft s ≤ 1)).
    + rewrite (tick_expiry p s r) in E by done. simplify_eq. by auto.
    + rewrite (tick_running p s r) in E by (done || lia). simplify_eq.
      split; [done|]. left. split; [lia|done].
  - left. unfold tick in E. rewrite Ht in E. by simplify_eq.
Qed.

(** X5: in a session that starts with a non-negative remaining time, every
    progress snapshot is exactly the state that the reporting operation
    leaves: it carries the answers and the remaining time of the state after
    the tick or the answer change that produced it. *)
Theorem X5_snapshot_is_state (p : QuizPlayerProps) (evs : list Event)
    (s : State) (cs : list Call) (ev : Event) (s' : State) (cs' : list Call)
    (a : UserAnswers) (t : Z) :
  0 ≤ initialTime p →
  run p (mount p).1 evs = Some (s, cs) →
  step p s ev = Some (s', cs') →
  (a, t) ∈ snapshots cs' →
  a = answers s' ∧ t = timeLeft s'.
Proof.
  intros H0 Hrun Hstep Hin.
  pose proof (run_closureCurrent _ _ _ _ Hrun) as Hcl.
  apply run_timeLeft in Hrun; [|done]. simpl in Hrun.
  destruct (step_cases _ _ _ _ _ Hstep)
    as [E|[(j & -> & ->)|[[-> ->]|[[-> ->]|(q & o & Hq & Ho & E)]]]];
    try (by apply elem_of_nil in Hin).
  - destruct (tick_cases _ _ _ _ E) as [[-> ->]|(r & Ht & Hans & Hcase)];
      [by apply elem_of_nil in Hin|].
    destruct (Hcl r Ht) as [Ha _]. rewrite Hans, <- Ha.
    destruct Hcase as [(Hl & -> & ->)|(Hl & -> & ->)].
    + apply snapshots_saved in Hin as (-> & -> & _). done.
    + rewrite snapshots_app, app_nil_r in Hin.
      apply snapshots_saved in Hin as (-> & -> & Hrem). split; [done|].
      assert (timeLeft s - 1 = -1 ∨ timeLeft s - 1 = 0) as [E'|E'] by lia;
        [by rewrite E' in Hrem|done].
  - unfold handleSelectOption, commitAnswers in E. injection E as -> ->.
    unfold snapshots in Hin.
    destruct (hasOnProgressUpdate p); simpl in Hin;
      [|by apply elem_of_nil in Hin].
    apply list_elem_of_singleton in Hin. by simplify_eq.
Qed.

Lemma X5_snapshot_is_state_witness :
  let p := freshSession 6 true in
  let s := (mount p).1 in
  let s' := {| currentQuestionIndex := 0; answers := ∅; timeLeft := 5;
               timer := Some {| r_answers := ∅; r_timeLeft := 6 |} |} in
  0 ≤ initialTime p ∧
  run p (mount p).1 [] = Some (s, []) ∧
  step p s IntervalFires = Some (s', [onProgressUpdate ∅ 5]) ∧
  (∅, 5) ∈ snapshots [onProgressUpdate ∅ 5] ∧
  (∅ : UserAnswers) = answers s' ∧ 5 = timeLeft s'.
Proof.
  assert (H0 : 0 ≤ initialTime (freshSession 6 true))
    by (vm_compute; discriminate).
  assert (Hin : ((∅ : UserAnswers), 5) ∈ snapshots [onProgressUpdate ∅ 5])
    by (simpl; apply list_elem_of_here).
  split; [exact H0|]. split; [reflexivity|]. split; [reflexivity|].
  split; [exact Hin|].
  exact (X5_snapshot_is_state (freshSession 6 true) [] _ _ IntervalFires _ _
           ∅ 5 H0 eq_refl eq_refl Hin).
Defined.

(** X6: every result delivered to [onFinish], by a submit button or by the
    expiry of the timer, carries the answers of the moment, and an elapsed
    time that is never negative and never more than the allocated time minus
    the remaining time of the moment: the time spent may be under-reported
    but is never over-reported. *)
Theorem X6_result_bounds (p : QuizPlayerProps) (evs : list Event)
    (s : State) (cs : list Call) (ev : Event) (s' : State) (cs' : list Call)
    (a : UserAnswers) (spent : Z) :
  run p (mount p).1 evs = Some (s, cs) →
  step p s ev = Some (s', cs') →
  (a, spent) ∈ results cs' →
  a = answers s ∧
  0 ≤ spent ≤ Z.max 0 (allocatedTime (data p) - timeLeft s).
Proof.
  intros Hrun Hstep Hin.
  pose proof (run_closureCurrent _ _ _ _ Hrun) as Hcl.
  destruct (step_cases _ _ _ _ _ Hstep)
    as [E|[(j & -> & ->)|[[-> ->]|[[-> ->]|(q & o & Hq & Ho & E)]]]];
    try (by apply elem_of_nil in Hin).
  - destruct (tick_cases _ _ _ _ E) as [[-> ->]|(r & Ht & Hans & Hcase)];
      [by apply elem_of_nil in Hin|].
    destruct (Hcl r Ht) as [Ha Hle].
    destruct Hcase as [(Hl & _ & ->)|(Hl & _ & ->)].
    + rewrite results_saved in Hin. by apply elem_of_nil in Hin.
    + unfold results in Hin. rewrite omap_app in Hin.
      fold (results (saved p r (timeLeft s - 1))) in Hin.
      rewrite results_saved in Hin. simpl in Hin.
      apply list_elem_of_singleton in Hin. simplify_eq.
      split; [done|lia].
  - unfold results, handleSubmit in Hin. simpl in Hin.
    apply list_elem_of_singleton in Hin. simplify_eq.
    simpl. split; [done|lia].
  - unfold handleSelectOption, commitAnswers in E. injection E as -> ->.
    unfold results in Hin.
    destruct (hasOnProgressUpdate p); simpl in Hin; by apply elem_of_nil in Hin.
Qed.

Lemma X6_result_bounds_witness :
  let p := freshSession 2 false in
  let s := {| currentQuestionIndex := 0; answers := {[ 1 := "B"%string ]};
              timeLeft := 1;
              timer := Some {| r_answers := {[ 1 := "B"%string ]};
                               r_timeLeft := 2 |} |} in
  let s' := {| currentQuestionIndex := 0; answers := {[ 1 := "B"%string ]};
               timeLeft := 0; timer := None |} in
  run p (mount p).1 [keyPress "b"; IntervalFires] = Some (s, []) ∧
  step p s IntervalFires = Some (s', [onFinish {[ 1 := "B"%string ]} 0]) ∧
  ({[ 1 := "B"%string ]}, 0) ∈ results [onFinish {[ 1 := "B"%string ]} 0] ∧
  ({[ 1 := "B"%string ]} : UserAnswers) = answers s ∧
  0 ≤ 0 ≤ Z.max 0 (allocatedTime (data p) - timeLeft s).
Proof.
  assert (Hin : (({[ 1 := "B"%string ]} : UserAnswers), 0)
                ∈ results [onFinish {[ 1 := "B"%string ]} 0])
    by (simpl; apply list_elem_of_here).
  split; [reflexivity|]. split; [reflexivity|]. split; [exact Hin|].
  exact (X6_result_bounds (freshSession 2 false) [keyPress "b"; IntervalFires]
           _ _ IntervalFires _ _ _ 0 eq_refl eq_refl Hin).
Defined.

Lemma size_list_to_set_le (l : list Z) :
  (size (list_to_set l : gset Z) ≤ length l)%nat.
Proof.
  induction l as [|x l IH].
  { rewrite list_to_set_nil, size_empty. done. }
  rewrite list_to_set_cons, size_union_alt, size_singleton. simpl length.
  pose proof (subseteq_size (list_to_set l ∖ {[x]}) (list_to_set l : gset Z)) as H.
  specialize (H ltac:(set_solver)). lia.
Qed.

Lemma run_dom_answers p evs s cs :
  run p (mount p).1 evs = Some (s, cs) →
  dom (answers s) ⊆ dom (default ∅ (initialAnswers p)) ∪ questionIds p.
Proof.
  apply (run_invariant p
    (λ s, dom (answers s) ⊆ dom (default ∅ (initialAnswers p)) ∪ questionIds p));
    [|simpl; set_solver].
  intros s0 ev s' cs0 Hinv Hstep i Hi.
  apply elem_of_dom in Hi.
  destruct (step_answers_kept _ _ _ _ _ Hstep i) as [Heq|(q & k & Hq & -> & _)].
  - apply Hinv, elem_of_dom. by rewrite <- Heq.
  - apply elem_of_union_r. unfold questionIds.
    apply elem_of_list_to_set, list_elem_of_fmap.
    exists q. split; [done|]. by eapply at_index_elem.
Qed.

(** X7: when the prior answers of a session concern questions of the quiz
    only, the answered count on display never exceeds the number of
    questions, whatever the user does. *)
Theorem X7_answered_count_bounded (p : QuizPlayerProps) (evs : list Event)
    (s : State) (cs : list Call) :
  dom (default ∅ (initialAnswers p)) ⊆ questionIds p →
  run p (mount p).1 evs = Some (s, cs) →
  (answeredCount (answers s) ≤ length (questions (data p)))%nat.
Proof.
  intros Hia Hrun. apply run_dom_answers in Hrun.
  unfold answeredCount. rewrite <- (size_dom (D := gset Z)).
  etrans; [apply subseteq_size; etrans; [exact Hrun|]|].
  - apply union_least; [exact Hia|done].
  - unfold questionIds. etrans; [apply size_list_to_set_le|].
    by rewrite length_fmap.
Qed.

Lemma X7_answered_count_bounded_witness :
  let p := resumedSession in
  let evs := [keyPress "b"; keyPress "c"; ClickNext; keyPress "1"] in
  dom (default ∅ (initialAnswers p)) ⊆ questionIds p ∧
  ∃ s cs, run p (mount p).1 evs = Some (s, cs) ∧
          (answeredCount (answers s) ≤ length (questions (data p)))%nat.
Proof.
  assert (H : dom (default ∅ (initialAnswers resumedSession))
              ⊆ questionIds resumedSession).
  { intros i Hi. apply elem_of_dom in Hi as [k Hk]. simpl in Hk.
    apply lookup_singleton_Some in Hk as [<- _].
    unfold questionIds. apply elem_of_list_to_set. simpl. apply list_elem_of_here. }
  split; [exact H|].
  destruct (run resumedSession (mount resumedSession).1
              [keyPress "b"; keyPress "c"; ClickNext; keyPress "1"])
    as [[s cs]|] eqn:E; [|vm_compute in E; discriminate E].
  exists s, cs. split; [reflexivity|].
  exact (X7_answered_count_bounded resumedSession _ s cs H E).
Defined.

(** ** Feedback *)

Lemma mappedKey_values x k :
  mappedKey x = Some k → k ∈ ["A"; "B"; "C"; "D"]%string.
Proof.
  unfold mappedKey, switchKey.
  repeat (destruct (keyIn x _); [intros [= <-]; set_solver|]). done.
Qed.

(** X8: once a key of the keyboard has selected an option of the current
    question, the sidebar button of the question is green exactly when the
    selected key is the correct answer and red otherwise; among the options,
    those with the correct key are shown as correct, the selected one is
    shown as wrong when it is not correct, and all others are faded. *)
Theorem X8_feedback_after_key (p : QuizPlayerProps) (s : State)
    (e : KeyboardEvent) (q : Question) (k : string) :
  e_targetIsInput e = false →
  currentQuestion p s = Some q →
  mappedKey (e_key e) = Some k →
  hasOption q k = true →
  ∃ s' cs,
    handleKeyDown p s e = Some (s', cs) ∧
    sidebarLook (answers s') q =
      (if bool_decide (k = correctAnswer q) then SidebarGreen else SidebarRed) ∧
    ∀ o, optionLook (answers s') q o =
           if bool_decide (key o = correctAnswer q) then OptionCorrect
           else if bool_decide (key o = k) then OptionWrong
           else OptionFaded.
Proof.
  intros Hin Hq Hk Hopt.
  assert (Hne : k ≠ "").
  { apply mappedKey_values in Hk. set_solver. }
  unfold handleKeyDown, mappedKey in *. rewrite Hin, Hq.
  destruct (switchKey (e_key e)) as [| |k'|]; try done.
  injection Hk as ->. rewrite Hopt.
  eexists _, _. split; [reflexivity|]. simpl.
  assert (Hans : isAnswered (<[qid q:=k]> (answers s)) q = true).
  { unfold isAnswered. rewrite lookup_insert_eq. simpl.
    by destruct (String.eqb_spec k ""). }
  split.
  - unfold sidebarLook, isCorrect. rewrite Hans, lookup_insert_eq.
    repeat case_bool_decide; congruence.
  - intros o. unfold optionLook, isCorrectAnswer, isSelected.
    rewrite Hans, lookup_insert_eq.
    destruct (String.eqb_spec (key o) (correctAnswer q));
      repeat case_bool_decide; simpl; congruence.
Qed.

Lemma X8_feedback_after_key_witness :
  let p := freshSession 60 false in
  let s := (mount p).1 in
  let e := {| e_key := "2"; e_targetIsInput := false |} in
  let q := question 1 "A" in
  e_targetIsInput e = false ∧ currentQuestion p s = Some q ∧
  mappedKey (e_key e) = Some "B"%string ∧ hasOption q "B" = true ∧
  ∃ s' cs,
    handleKeyDown p s e = Some (s', cs) ∧
    sidebarLook (answers s') q =
      (if bool_decide ("B"%string = correctAnswer q)
       then SidebarGreen else SidebarRed) ∧
    ∀ o, optionLook (answers s') q o =
           if bool_decide (key o = correctAnswer q) then OptionCorrect
           else if bool_decide (key o = "B"%string) then OptionWrong
           else OptionFaded.
Proof.
  split; [reflexivity|]. split; [reflexivity|].
  split; [reflexivity|]. split; [reflexivity|].
  exact (X8_feedback_after_key (freshSession 60 false)
           (mount (freshSession 60 false)).1
           {| e_key := "2"; e_targetIsInput := false |} (question 1 "A") "B"
           eq_refl eq_refl eq_refl eq_refl).
Defined.

Lemma filter_eq_length_le {A} (f : A → string) (c : string) (l : list A) :
  NoDup (f <$> l) → (length (filter (λ x, f x = c) l) ≤ 1)%nat.
Proof.
  induction l as [|x l IH]; [simpl; lia|].
  rewrite fmap_cons, NoDup_cons. intros [Hx Hnd].
  rewrite filter_cons. case_decide as Hc; [|by auto].
  simpl. specialize (IH Hnd).
  destruct (filter (λ x0, f x0 = c) l) as [|y l'] eqn:E; [simpl; lia|].
  exfalso. apply Hx.
  assert (Hy : y ∈ filter (λ x0, f x0 = c) l) by (rewrite E; left).
  apply list_elem_of_filter in Hy as [Hfy Hyl].
  apply list_elem_of_fmap. exists y. split; [congruence|done].
Qed.

Lemma filter_eq_length_ge {A} (f : A → string) (c : string) (l : list A) :
  c ∈ f <$> l → (1 ≤ length (filter (λ x, f x = c) l))%nat.
Proof.
  intros Hc. apply list_elem_of_fmap in Hc as (x & -> & Hx).
  assert (Hin : x ∈ filter (λ x0, f x0 = f x) l)
    by (by apply list_elem_of_filter).
  destruct (filter (λ x0, f x0 = f x) l); [by apply elem_of_nil in Hin|simpl; lia].
Qed.

Lemma filter_length_mono {A} (P Q : A → Prop)
    `{!∀ x, Decision (P x)} `{!∀ x, Decision (Q x)} (l : list A) :
  (∀ x, P x → Q x) → (length (filter P l) ≤ length (filter Q l))%nat.
Proof.
  intros HPQ. induction l as [|x l IH]; [done|].
  rewrite !filter_cons. repeat case_decide; simpl; try lia.
  exfalso. by auto.
Qed.

(** X9: for a question whose option keys are distinct and whose correct
    answer is one of them, an unanswered question shows every option as
    neutral, and an answered one shows exactly one option as correct and at
    most one as wrong. *)
Theorem X9_one_correct_option (a : UserAnswers) (q : Question) :
  NoDup (key <$> options q) →
  correctAnswer q ∈ key <$> options q →
  (isAnswered a q = false →
   ∀ o, optionLook a q o = OptionNeutral) ∧
  (isAnswered a q = true →
   length (filter (λ o, optionLook a q o = OptionCorrect) (options q)) = 1%nat ∧
   (length (filter (λ o, optionLook a q o = OptionWrong) (options q)) ≤ 1)%nat).
Proof.
  intros Hnd Hin. split; intros Hans.
  - intros o. unfold optionLook. by rewrite Hans.
  - split.
    + rewrite (list_filter_iff _ (λ o, key o = correctAnswer q)).
      * pose proof (filter_eq_length_le key (correctAnswer q) _ Hnd).
        pose proof (filter_eq_length_ge key (correctAnswer q) _ Hin). lia.
      * intros o. unfold optionLook, isCorrectAnswer. rewrite Hans.
        destruct (String.eqb_spec (key o) (correctAnswer q));
          [done|]. split; [|done]. by destruct (_ && _).
    + destruct (a !! qid q) as [k|] eqn:Hk;
        [|unfold isAnswered in Hans; by rewrite Hk in Hans].
      etrans; [|apply (filter_eq_length_le key k _ Hnd)].
      apply filter_length_mono. intros o.
      unfold optionLook, isSelected. rewrite Hans, Hk.
      destruct (isCorrectAnswer q o); [done|].
      case_bool_decide; [congruence|done].
Qed.

(** ** The clock *)

Lemma string_length_app (s t : string) :
  String.length (s +:+ t) = (String.length s + String.length t)%nat.
Proof. induction s as [|a s IH]; simpl; [done|]. by rewrite IH. Qed.

Lemma string_app_inj (s1 s2 t1 t2 : string) :
  String.length s1 = String.length s2 →
  s1 +:+ t1 = s2 +:+ t2 → s1 = s2 ∧ t1 = t2.
Proof.
  revert s2. induction s1 as [|a s1 IH]; intros [|b s2] Hlen H;
    simpl in *; try done.
  injection H as -> H. destruct (IH s2) as [-> ->]; [lia|done|done].
Qed.

(** Two-digit values print as their two digits. *)
Lemma padStart2_two_digits n :
  0 ≤ n < 100 →
  padStart2 (toString n) = String (digit (n / 10)) (String (digit (n `mod` 10)) "").
Proof.
  intros Hn.
  assert (Hall : Forall (λ n, padStart2 (toString n) =
             String (digit (n / 10)) (String (digit (n `mod` 10)) ""))
            (seqZ 0 100)).
  { apply (bool_decide_unpack _). vm_compute. exact I. }
  rewrite Forall_forall in Hall. apply Hall, elem_of_seqZ. lia.
Qed.

(** X10: a remaining time below 100 minutes is displayed as MM:SS: the two
    digits of the minutes, a colon, and the two digits of the seconds, with
    leading zeros. *)
Theorem X10_formatTime_shape (t : Z) :
  0 ≤ t < 6000 →
  formatTime t =
    String (digit (t / 600))
      (String (digit ((t / 60) `mod` 10))
         (String ":"%char
            (String (digit ((t `mod` 60) / 10))
               (String (digit (t `mod` 10)) "")))).
Proof.
  intros Ht. unfold formatTime.
  rewrite Z.rem_mod_nonneg by lia.
  rewrite !padStart2_two_digits by (Z.to_euclidean_division_equations; lia).
  simpl.
  replace (t / 60 / 10) with (t / 600) by (Z.to_euclidean_division_equations; lia).
  replace ((t `mod` 60) `mod` 10) with (t `mod` 10)
    by (Z.to_euclidean_division_equations; lia).
  done.
Qed.

Lemma X10_formatTime_shape_witness :
  0 ≤ 754 < 6000 ∧ formatTime 754 = "12:34"%string.
Proof.
  split; [lia|].
  exact (X10_formatTime_shape 754 ltac:(lia)).
Defined.

(** Reading back a padded non-negative number. *)
Lemma read_padStart2 n :
  0 ≤ n →
  Z.of_int <$> NilZero.int_of_string (padStart2 (toString n)) = Some n.
Proof.
  intros Hn.
  assert (Hplain : Z.of_int <$> NilZero.int_of_string (toString n) = Some n).
  { unfold toString. rewrite NilZero.isi.
    - simpl. by rewrite DecimalZ.of_to.
    - destruct n; try done. simpl. intros [= H].
      by apply DecimalPos.Unsigned.to_uint_nonnil in H.
    - by destruct n. }
  assert (∃ d, d ≠ Decimal.Nil ∧ Z.to_int n = Decimal.Pos d ∧ Z.of_uint d = n)
    as (d & Hd & Hint & Hval).
  { destruct n as [|q|q]; [|  |lia].
    - exists (Decimal.D0 Decimal.Nil). done.
    - exists (Pos.to_uint q). split; [apply DecimalPos.Unsigned.to_uint_nonnil|].
      split; [done|]. unfold Z.of_uint.
      by rewrite DecimalPos.Unsigned.of_to. }
  assert (Hstr : toString n = NilEmpty.string_of_uint d).
  { unfold toString. rewrite Hint. simpl. by destruct d. }
  unfold padStart2.
  destruct (String.length (toString n)) as [|[|k]] eqn:Hlen; [| |done].
  - rewrite Hstr in Hlen. by destruct d.
  - rewrite Hstr. simpl.
    change ("" +:+ NilEmpty.string_of_uint d) with (NilEmpty.string_of_uint d).
    rewrite NilEmpty.usu. simpl. by rewrite <- Hval.
Qed.

(** X11: two different non-negative remaining times are never displayed the
    same way, however large they are. *)
Theorem X11_formatTime_injective (a b : Z) :
  0 ≤ a → 0 ≤ b → formatTime a = formatTime b → a = b.
Proof.
  intros Ha Hb H. unfold formatTime in H.
  rewrite !Z.rem_mod_nonneg in H by lia.
  assert (Hsec : ∀ t, 0 ≤ t →
            String.length (padStart2 (toString (t `mod` 60))) = 2%nat).
  { intros t Ht. rewrite padStart2_two_digits; [done|].
    Z.to_euclidean_division_equations; lia. }
  assert (Hlen : String.length (padStart2 (toString (a / 60)))
                 = String.length (padStart2 (toString (b / 60)))).
  { apply (f_equal String.length) in H.
    rewrite !string_length_app, !Hsec in H by done. lia. }
  destruct (string_app_inj _ _ _ _ Hlen H) as [Hm Hs].
  simpl in Hs. injection Hs as Hs.
  change (padStart2 (toString (a `mod` 60)) = padStart2 (toString (b `mod` 60)))
    in Hs.
  assert (Hra : 0 ≤ a / 60 ∧ 0 ≤ a `mod` 60)
    by (Z.to_euclidean_division_equations; lia).
  assert (Hrb : 0 ≤ b / 60 ∧ 0 ≤ b `mod` 60)
    by (Z.to_euclidean_division_equations; lia).
  pose proof (read_padStart2 (a / 60) (proj1 Hra)) as Hma.
  pose proof (read_padStart2 (a `mod` 60) (proj2 Hra)) as Hsa.
  rewrite Hm, read_padStart2 in Hma by apply Hrb.
  rewrite Hs, read_padStart2 in Hsa by apply Hrb.
  injection Hma as Hma. injection Hsa as Hsa.
  Z.to_euclidean_division_equations; lia.
Qed.

Lemma X11_formatTime_injective_witness :
  0 ≤ 7200 ∧ 0 ≤ 7200 ∧ formatTime 7200 = formatTime 7200 ∧ 7200 = 7200.
Proof.
  split; [lia|]. split; [lia|]. split; [reflexivity|].
  exact (X11_formatTime_injective 7200 7200 ltac:(lia) ltac:(lia) eq_refl).
Defined.

(** * The configuration form *)

Lemma maxAllowed_pos d : questions d ≠ [] → 1 ≤ QuizConfig.maxAllowed d ≤ 50.
Proof.
  intros Hne. unfold QuizConfig.maxAllowed, QuizConfig.LIMIT.
  destruct (questions d); [done|simpl length; lia].
Qed.

Lemma config_init d : questions d ≠ [] → configInv (QuizConfig.init d).
Proof.
  intros Hne. pose proof (maxAllowed_pos d Hne).
  unfold configInv. simpl. lia.
Qed.

Lemma config_step f ev :
  configInv f → QuizConfig.deliverable f ev → configInv (QuizConfig.step f ev).
Proof.
  unfold configInv. intros [Hc Ht] Hev.
  destruct ev as [d'|v|v|v|b]; simpl in *.
  - pose proof (maxAllowed_pos d' Hev) as Hm.
    unfold QuizConfig.maxAllowed in *. lia.
  - destruct (_ =? _); simpl; lia.
  - destruct (Z.eqb_spec (QuizConfig.maxAllowed (QuizConfig.formData f)) 0);
      simpl; lia.
  - lia.
  - lia.
Qed.

Lemma config_run evs f :
  configInv f → QuizConfig.deliverableRun f evs →
  configInv (foldl QuizConfig.step f evs).
Proof.
  revert f. induction evs as [|ev evs IH]; intros f Hinv Hrun; [done|].
  destruct Hrun as [Hev Hrun]. simpl. apply IH; [|done].
  by apply config_step.
Qed.

(** X12: the form opened on a quiz with questions keeps, through any
    sequence of inputs (slider, typed count, typed minutes, mode, new batch),
    a question count between 1 and the smaller of 50 and the number of
    questions of the current batch, and a time limit of at least one minute:
    a typed count or time that is empty, not a number, zero, negative or too
    large never gets through. *)
Theorem X12_config_bounds (d : QuizData) (evs : list QuizConfig.Event) :
  questions d ≠ [] →
  QuizConfig.deliverableRun (QuizConfig.init d) evs →
  let f := foldl QuizConfig.step (QuizConfig.init d) evs in
  let s := QuizConfig.formState f in
  1 ≤ QuizConfig.questionCount s ∧
  QuizConfig.questionCount s ≤ 50 ∧
  QuizConfig.questionCount s
    ≤ Z.of_nat (length (questions (QuizConfig.formData f))) ∧
  1 ≤ QuizConfig.timeLimit s.
Proof.
  intros Hne Hrun.
  destruct (config_run evs _ (config_init d Hne) Hrun) as [Hc Ht].
  unfold QuizConfig.maxAllowed, QuizConfig.LIMIT in Hc. simpl. lia.
Qed.

Lemma X12_config_bounds_witness :
  let d := quizABC None in
  let evs := [QuizConfig.TypeCount (Some 70); QuizConfig.TypeTime None;
              QuizConfig.SlideCount 2; QuizConfig.TypeTime (Some (-3));
              QuizConfig.NewData (quizABC (Some 5)); QuizConfig.TypeCount (Some 0)] in
  questions d ≠ [] ∧
  QuizConfig.deliverableRun (QuizConfig.init d) evs ∧
  let s := QuizConfig.formState (foldl QuizConfig.step (QuizConfig.init d) evs) in
  1 ≤ QuizConfig.questionCount s ∧
  QuizConfig.questionCount s ≤ 50 ∧
  QuizConfig.questionCount s ≤ 3 ∧
  1 ≤ QuizConfig.timeLimit s.
Proof.
  assert (Hne : questions (quizABC None) ≠ []) by discriminate.
  assert (Hrun : QuizConfig.deliverableRun (QuizConfig.init (quizABC None))
            [QuizConfig.TypeCount (Some 70); QuizConfig.TypeTime None;
             QuizConfig.SlideCount 2; QuizConfig.TypeTime (Some (-3));
             QuizConfig.NewData (quizABC (Some 5)); QuizConfig.TypeCount (Some 0)]).
  { simpl. repeat split; try discriminate; vm_compute; discriminate. }
  split; [exact Hne|]. split; [exact Hrun|].
  exact (X12_config_bounds (quizABC None) _ Hne Hrun).
Defined.

(** X13: whenever the form can be started it hands over a time limit of a
    whole number of minutes, at least 60 seconds, and a question count that
    the batch can supply.  A quiz that carries this limit never falls back
    to the player's 60 seconds per question: a fresh session of it starts
    with exactly the configured time. *)
Theorem X13_start_configuration (d : QuizData) (evs : list QuizConfig.Event) :
  questions d ≠ [] →
  QuizConfig.deliverableRun (QuizConfig.init d) evs →
  let f := foldl QuizConfig.step (QuizConfig.init d) evs in
  ∃ c,
    QuizConfig.handleStart f = Some c ∧
    QuizConfig.startTimeLimit c = 60 * QuizConfig.timeLimit (QuizConfig.formState f) ∧
    60 ≤ QuizConfig.startTimeLimit c ∧
    1 ≤ QuizConfig.startQuestionCount c
      ≤ Z.of_nat (length (questions (QuizConfig.formData f))) ∧
    ∀ p, timeLimit (data p) = Some (QuizConfig.startTimeLimit c) →
         initialTimeLeft p = None →
         allocatedTime (data p) = QuizConfig.startTimeLimit c ∧
         timeLeft (mount p).1 = QuizConfig.startTimeLimit c.
Proof.
  intros Hne Hrun f.
  destruct (config_run evs _ (config_init d Hne) Hrun) as [Hc Ht].
  fold f in Hc, Ht. unfold QuizConfig.handleStart.
  destruct (Z.eqb_spec (QuizConfig.maxAllowed (QuizConfig.formData f)) 0);
    [lia|].
  eexists. split; [reflexivity|]. simpl.
  unfold QuizConfig.maxAllowed, QuizConfig.LIMIT in Hc.
  split; [lia|]. split; [lia|]. split; [lia|].
  intros p Hlimit Hfresh.
  assert (Halloc : allocatedTime (data p)
                   = QuizConfig.timeLimit (QuizConfig.formState f) * 60).
  { unfold allocatedTime. rewrite Hlimit.
    destruct (Z.eqb_spec (QuizConfig.timeLimit (QuizConfig.formState f) * 60) 0);
      [lia|done]. }
  split; [done|]. simpl. unfold initialTime. by rewrite Hfresh.
Qed.

Lemma X13_start_configuration_witness :
  let d := quizABC None in
  let evs := [QuizConfig.TypeTime (Some 2)] in
  questions d ≠ [] ∧
  QuizConfig.deliverableRun (QuizConfig.init d) evs ∧
  ∃ c,
    QuizConfig.handleStart (foldl QuizConfig.step (QuizConfig.init d) evs) = Some c ∧
    QuizConfig.startTimeLimit c = 120.
Proof.
  assert (Hne : questions (quizABC None) ≠ []) by discriminate.
  assert (Hrun : QuizConfig.deliverableRun (QuizConfig.init (quizABC None))
                   [QuizConfig.TypeTime (Some 2)]) by (simpl; done).
  split; [exact Hne|]. split; [exact Hrun|].
  destruct (X13_start_configuration (quizABC None) _ Hne Hrun)
    as (c & Hc & Ht & _).
  exists c. split; [exact Hc|exact Ht].
Defined.

(** X14: the twenty entries of the batch selector cut the question numbers
    1 to 1000 into consecutive runs of 50: every number belongs to exactly
    one batch, the one numbered [(k - 1) / 50]. *)
Theorem X14_batches_tile (k : Z) :
  1 ≤ k ≤ 1000 →
  let i := (k - 1) / 50 in
  (i, QuizConfig.batchLabel i) ∈ QuizConfig.batchOptions ∧
  QuizConfig.batchStart i ≤ k ≤ QuizConfig.batchEnd i ∧
  QuizConfig.batchEnd i - QuizConfig.batchStart i + 1 = QuizConfig.LIMIT ∧
  ∀ j l, (j, l) ∈ QuizConfig.batchOptions →
         QuizConfig.batchStart j ≤ k ≤ QuizConfig.batchEnd j → j = i.
Proof.
  intros Hk i. unfold QuizConfig.batchOptions, QuizConfig.batchStart,
    QuizConfig.batchEnd, QuizConfig.LIMIT.
  assert (Hi : 0 ≤ i < 20) by (subst i; Z.to_euclidean_division_equations; lia).
  split.
  { apply list_elem_of_fmap. exists i. split; [done|]. apply elem_of_seqZ. lia. }
  split; [subst i; Z.to_euclidean_division_equations; lia|].
  split; [lia|].
  intros j l Hj Hjk. subst i. Z.to_euclidean_division_equations; lia.
Qed.

Lemma X14_batches_tile_witness :
  1 ≤ 51 ≤ 1000 ∧
  (1, QuizConfig.batchLabel 1) ∈ QuizConfig.batchOptions ∧
  QuizConfig.batchStart 1 ≤ 51 ≤ QuizConfig.batchEnd 1.
Proof.
  split; [lia|].
  destruct (X14_batches_tile 51 ltac:(lia)) as (H1 & H2 & _).
  split; [exact H1|exact H2].
Defined.

(** * The upload zone *)

Lemma splitAt_dotFree s :
  UploadSection.dotFree s = true → UploadSection.splitAt "."%char s = (s, []).
Proof.
  induction s as [|c s IH]; simpl; [done|].
  destruct (Ascii.eqb c "."%char); simpl; [done|].
  intros H. by rewrite IH.
Qed.

Lemma splitAt_last_segment base ext :
  UploadSection.dotFree ext = true →
  ∃ h t, UploadSection.splitAt "."%char (base +:+ ("." +:+ ext)) = (h, t) ∧
         last t = Some ext.
Proof.
  intros Hext. induction base as [|c base (h & t & IH & Hlast)].
  - simpl. change ("" +:+ ext) with ext.
    rewrite (splitAt_dotFree ext Hext). by eauto.
  - simpl. rewrite IH. destruct (Ascii.eqb c "."%char).
    + eexists _, _. split; [done|].
      destruct t; [done|]. by rewrite last_cons_cons.
    + by eauto.
Qed.

(** X15: the extension check of a file looks only at what follows the last
    dot of the name, in any letter case, and at the whole name when it has no
    dot: a file is valid exactly when its type is an accepted one or that
    last part, in lower case and after a dot, is an accepted extension. *)
Theorem X15_valid_file (t ext : string) :
  UploadSection.dotFree ext = true →
  let verdict :=
    UploadSection.includes UploadSection.validMimes t ||
    UploadSection.includes UploadSection.acceptedExtensions
      ("." +:+ UploadSection.toLowerCase ext) in
  (∀ base,
     UploadSection.isValidFile
       {| UploadSection.type := t;
          UploadSection.name := base +:+ ("." +:+ ext) |} = verdict) ∧
  UploadSection.isValidFile
    {| UploadSection.type := t; UploadSection.name := ext |} = verdict.
Proof.
  intros Hext verdict. subst verdict. unfold UploadSection.isValidFile. simpl.
  split.
  - intros base.
    destruct (splitAt_last_segment base ext Hext) as (h & t' & Hs & Hlast).
    unfold UploadSection.split, UploadSection.pop. rewrite Hs.
    destruct t' as [|x t']; [done|]. rewrite last_cons, Hlast.
    by destruct (UploadSection.includes UploadSection.validMimes t).
  - unfold UploadSection.split, UploadSection.pop.
    rewrite (splitAt_dotFree ext Hext). simpl.
    by destruct (UploadSection.includes UploadSection.validMimes t).
Qed.

Lemma X15_valid_file_witness :
  UploadSection.dotFree "PDF" = true ∧
  UploadSection.isValidFile
    {| UploadSection.type := ""; UploadSection.name := "my.exam.v2.PDF" |} = true ∧
  UploadSection.isValidFile
    {| UploadSection.type := ""; UploadSection.name := "PDF" |} = true.
Proof.
  split; [reflexivity|].
  destruct (X15_valid_file "" "PDF" eq_refl) as [Hdot Hplain].
  split; [exact (Hdot "my.exam.v2"%string)|exact Hplain].
Defined.

(** X16: a drop hands over to [onFileSelect] nothing but the first file of
    the drop, and only when that file is valid; otherwise it alerts.  The
    file input hands over its first file unchecked, unless it is disabled
    by [isProcessing]; its [accept] attribute lists the same extensions. *)
Theorem X16_drop_and_picker (files : list UploadSection.File)
    (isProcessing : bool) :
  (∀ f, UploadSection.onFileSelect f ∈ UploadSection.handleDrop files ↔
        head files = Some f ∧ UploadSection.isValidFile f = true) ∧
  (UploadSection.alert ∈ UploadSection.handleDrop files ↔
   ∃ f, head files = Some f ∧ UploadSection.isValidFile f = false) ∧
  (∀ f, UploadSection.onFileSelect f
          ∈ UploadSection.handleChange isProcessing files ↔
        isProcessing = false ∧ head files = Some f) ∧
  UploadSection.split ","%char acceptAttribute = UploadSection.acceptedExtensions.
Proof.
  split; [|split; [|split; [|reflexivity]]].
  - intros f. destruct files as [|f0 rest]; simpl.
    + split; [by intros ?%elem_of_nil|by intros [? _]].
    + destruct (UploadSection.isValidFile f0) eqn:E.
      * rewrite list_elem_of_singleton. split.
        -- intros [= ->]. done.
        -- intros [[= ->] _]. done.
      * rewrite list_elem_of_singleton. split; [done|].
        intros [[= ->] ?]. congruence.
  - destruct files as [|f0 rest]; simpl.
    + split; [by intros ?%elem_of_nil|by intros (? & ? & _)].
    + destruct (UploadSection.isValidFile f0) eqn:E.
      * rewrite list_elem_of_singleton. split; [done|].
        intros (f & [= <-] & ?). congruence.
      * rewrite list_elem_of_singleton. split; [by eauto|done].
  - intros f. unfold UploadSection.handleChange.
    destruct isProcessing; [split; [by intros ?%elem_of_nil|by intros [? _]]|].
    destruct files as [|f0 rest]; simpl.
    + split; [by intros ?%elem_of_nil|by intros [_ ?]].
    + rewrite list_elem_of_singleton. split.
      * intros [= ->]. done.
      * intros [_ [= ->]]. done.
Qed.

(** * The extraction service *)

Lemma rethrow_nonempty m : GeminiService.rethrow m ≠ "".
Proof.
  unfold GeminiService.rethrow. by destruct (String.eqb_spec m "").
Qed.

(** X17: as the sources stand, nothing declares the identifier that line 11
    reads, and then every call of [processFileToQuiz] is rejected with a
    [ReferenceError], before the key check and whatever the service would
    answer: no quiz is returned.  A quiz is returned only where the
    environment binds that identifier to a non-empty string, and then it is
    what the non-empty response text parsed to and it has at least one
    question, so that the configuration form opened on it allows a count of
    at least 1. *)
Theorem X17_extraction_outcome (parse : string → string + QuizData)
    (keyGlobal : option string) (startQuestion endQuestion : option Z)
    (response : GeminiService.Response) :
  let outcome :=
    GeminiService.processFileToQuiz parse keyGlobal startQuestion endQuestion
      response in
  (keyGlobal = None → outcome = GeminiService.RejectsReferenceError) ∧
  (∀ d, outcome = GeminiService.Resolves d →
     ∃ apiKey text,
       keyGlobal = Some apiKey ∧ apiKey ≠ "" ∧
       response = GeminiService.Responds (Some text) ∧ text ≠ "" ∧
       parse text = inr d ∧
       questions d ≠ [] ∧ 1 ≤ QuizConfig.maxAllowed d).
Proof.
  unfold GeminiService.processFileToQuiz. split; [by intros ->|].
  intros d. destruct keyGlobal as [apiKey|]; [|done].
  destruct (String.eqb_spec apiKey "") as [|Hkey]; [done|].
  destruct response as [m|[text|]]; try done.
  simpl. destruct (String.eqb_spec text "") as [->|Hne]; [done|]. simpl.
  destruct (parse text) as [m|data] eqn:Hp; [done|].
  destruct (Nat.eqb_spec (length (questions data)) 0) as [|Hlen]; [done|].
  intros [= <-].
  assert (Hq : questions data ≠ []) by (by destruct (questions data)).
  exists apiKey, text. repeat split; try done.
  by apply maxAllowed_pos.
Qed.

(** X18: an [Error] thrown by [processFileToQuiz] always has a message,
    whatever the service or the parser threw.  Where the environment binds
    the identifier of line 11 to an empty string the call fails with "API
    Key is missing"; where it binds it to a non-empty one, a response
    without text fails with "No response from AI" and a parsed quiz without
    questions is a failure. *)
Theorem X18_failure_has_message (parse : string → string + QuizData)
    (keyGlobal : option string) (startQuestion endQuestion : option Z) :
  let call :=
    GeminiService.processFileToQuiz parse keyGlobal startQuestion endQuestion in
  (∀ response m, call response = GeminiService.Rejects m → m ≠ "") ∧
  (keyGlobal = Some ""%string →
   ∀ response, call response = GeminiService.Rejects "API Key is missing") ∧
  (∀ apiKey, keyGlobal = Some apiKey → apiKey ≠ "" →
   ∀ text, truthy text = false →
     call (GeminiService.Responds text)
       = GeminiService.Rejects "No response from AI") ∧
  (∀ apiKey, keyGlobal = Some apiKey → apiKey ≠ "" →
   ∀ text d, text ≠ "" → parse text = inr d → questions d = [] →
     ∃ m, call (GeminiService.Responds (Some text)) = GeminiService.Rejects m).
Proof.
  unfold GeminiService.processFileToQuiz. split; [|split; [|split]].
  - intros response m.
    destruct keyGlobal as [apiKey|]; [|done].
    destruct (String.eqb apiKey ""); [by intros [= <-]|].
    destruct response as [m'|[text|]]; simpl.
    + intros [= <-]. apply rethrow_nonempty.
    + destruct (String.eqb text ""); simpl; [by intros [= <-]|].
      destruct (parse text) as [m'|data]; [intros [= <-]; apply rethrow_nonempty|].
      destruct (length (questions data) =? 0)%nat; [|done].
      intros [= <-]. apply rethrow_nonempty.
    + by intros [= <-].
  - by intros ->.
  - intros apiKey -> Hkey text Ht.
    destruct (String.eqb_spec apiKey ""); [done|]. by rewrite Ht.
  - intros apiKey -> Hkey text d Hne Hp Hq.
    destruct (String.eqb_spec apiKey ""); [done|]. simpl.
    destruct (String.eqb_spec text ""); [done|]. simpl.
    rewrite Hp, Hq. simpl. by eauto.
Qed.

Lemma X9_one_correct_option_witness :
  let a : UserAnswers := {[ 1 := "B"%string ]} in
  let q := question 1 "A" in
  NoDup (key <$> options q) ∧ correctAnswer q ∈ key <$> options q ∧
  isAnswered a q = true ∧
  length (filter (λ o, optionLook a q o = OptionCorrect) (options q)) = 1%nat ∧
  (length (filter (λ o, optionLook a q o = OptionWrong) (options q)) ≤ 1)%nat.
Proof.
  assert (Hnd : NoDup (key <$> options (question 1 "A"))).
  { simpl. repeat (apply NoDup_cons; split; [set_solver|]). apply NoDup_nil_2. }
  assert (Hin : correctAnswer (question 1 "A") ∈ key <$> options (question 1 "A")).
  { simpl. apply list_elem_of_here. }
  split; [exact Hnd|]. split; [exact Hin|]. split; [reflexivity|].
  exact (proj2 (X9_one_correct_option {[ 1 := "B"%string ]} (question 1 "A")
                  Hnd Hin) eq_refl).
Defined.

(** * The result delivered at expiry *)

Lemma results_app c1 c2 : results (c1 ++ c2) = results c1 ++ results c2.
Proof. unfold results. apply omap_app. Qed.

Lemma ticks_results p n s r :
  timer s = Some r → timeLeft s ≤ Z.of_nat n → (0 < n)%nat →
  results (ticks p n s).2 =
    [(r_answers r, Z.max 0 (allocatedTime (data p) - r_timeLeft r))].
Proof.
  revert s. induction n as [|n IH]; intros s Ht Hl Hn; [lia|].
  simpl. destruct (decide (timeLeft s ≤ 1)) as [Hle|Hgt].
  - rewrite (tick_expiry p s r Ht Hle), ticks_cleared by done. simpl.
    by rewrite app_nil_r, results_app, results_saved.
  - rewrite (tick_running p s r Ht) by lia.
    match goal with |- context [ticks p n ?s1] =>
      specialize (IH s1); destruct (ticks p n s1) as [s2 c2] eqn:E end.
    simpl in *. rewrite results_app, results_saved, IH by (done || lia). done.
Qed.

(** X19: when the timer runs out after an answer was selected, with no
    other answer selected since, the one result delivered carries that
    answer, and as elapsed time the time that had gone by when the answer
    was selected: the seconds between the last answer and the expiry are not
    counted. *)
Theorem X19_expiry_counts_until_last_answer (p : QuizPlayerProps) (s : State)
    (questionId : Z) (optionKey : string) (n : nat) :
  (0 < n)%nat → timeLeft s ≤ Z.of_nat n →
  ∃ s' cs,
    run p (handleSelectOption p s questionId optionKey).1
        (replicate n IntervalFires) = Some (s', cs) ∧
    timeLeft s' = 0 ∧
    results cs =
      [(<[questionId := optionKey]> (answers s),
        Z.max 0 (allocatedTime (data p) - timeLeft s))].
Proof.
  intros Hn Hl. rewrite run_ticks.
  set (s1 := (handleSelectOption p s questionId optionKey).1).
  set (r := {| r_answers := <[questionId := optionKey]> (answers s);
               r_timeLeft := timeLeft s |}).
  pose proof (ticks_results p n s1 r eq_refl Hl Hn) as Hres.
  pose proof (ticks_expire p n s1 r eq_refl Hl Hn) as (Hz & _).
  destruct (ticks p n s1) as [s' cs]. by eauto.
Qed.

Lemma X19_expiry_counts_until_last_answer_witness :
  let p := freshSession 60 false in
  let s := {| currentQuestionIndex := 0; answers := ∅; timeLeft := 40;
              timer := Some {| r_answers := ∅; r_timeLeft := 60 |} |} in
  (0 < 40)%nat ∧ timeLeft s ≤ Z.of_nat 40 ∧
  ∃ s' cs,
    run p (handleSelectOption p s 1 "A").1 (replicate 40 IntervalFires)
      = Some (s', cs) ∧
    timeLeft s' = 0 ∧
    results cs = [({[ 1 := "A"%string ]}, 20)].
Proof.
  split; [lia|]. split; [vm_compute; discriminate|].
  exact (X19_expiry_counts_until_last_answer (freshSession 60 false)
           {| currentQuestionIndex := 0; answers := ∅; timeLeft := 40;
              timer := Some {| r_answers := ∅; r_timeLeft := 60 |} |}
           1 "A" 40 ltac:(lia) ltac:(vm_compute; discriminate)).
Defined.
